(** * Verification of [backend/text_parser.py]

    A shallow embedding of the rule-based meeting-text extraction engine and of
    the requirements mapper.  Python [str] values are ASCII [string]s; the
    [re] module is embedded as a backtracking matcher over a parsed pattern, so
    every pattern below is the source's raw string literal, unchanged. *)

From Stdlib Require Import Bool Arith Lia List String Ascii.
From Stdlib Require Import Numbers.DecimalString Numbers.DecimalNat Sorting.Sorted Sorting.Permutation.
Import ListNotations.
Open Scope list_scope.
Open Scope string_scope.
Open Scope nat_scope.

(* ------------------------------------------------------------------ *)
(** ** Characters and Python [str] helpers *)

Module Py.

Definition code (c : ascii) : nat := nat_of_ascii c.

(** [str.isspace] restricted to ASCII (also the [\s] class of [re]). *)
Definition is_space (c : ascii) : bool :=
  let n := code c in
  (n =? 32) || ((9 <=? n) && (n <=? 13)) || ((28 <=? n) && (n <=? 31)).

Definition is_digit (c : ascii) : bool := (48 <=? code c) && (code c <=? 57).
Definition is_upper (c : ascii) : bool := (65 <=? code c) && (code c <=? 90).
Definition is_lower (c : ascii) : bool := (97 <=? code c) && (code c <=? 122).
Definition is_word (c : ascii) : bool :=
  is_digit c || is_upper c || is_lower c || (code c =? 95).

Definition to_lower (c : ascii) : ascii :=
  if is_upper c then ascii_of_nat (code c + 32) else c.
Definition to_upper (c : ascii) : ascii :=
  if is_lower c then ascii_of_nat (code c - 32) else c.

Definition chars (s : string) : list ascii := list_ascii_of_string s.
Definition of_chars (l : list ascii) : string := string_of_list_ascii l.

(** [s.lower()] *)
Definition lower (s : string) : string := of_chars (map to_lower (chars s)).

(** [s.strip()] *)
Fixpoint drop_space (l : list ascii) : list ascii :=
  match l with
  | c :: r => if is_space c then drop_space r else l
  | [] => []
  end.
Definition strip (s : string) : string :=
  of_chars (rev (drop_space (rev (drop_space (chars s))))).

(** [s.split()] : runs of whitespace separate, no empty fields. *)
Fixpoint split_ws_aux (l : list ascii) (cur : list ascii) : list string :=
  match l with
  | [] => match cur with [] => [] | _ => [of_chars (rev cur)] end
  | c :: r =>
      if is_space c then
        match cur with
        | [] => split_ws_aux r []
        | _ => of_chars (rev cur) :: split_ws_aux r []
        end
      else split_ws_aux r (c :: cur)
  end.
Definition split (s : string) : list string := split_ws_aux (chars s) [].

(** [sub in s] *)
Fixpoint prefix_of (p l : list ascii) : bool :=
  match p, l with
  | [], _ => true
  | a :: p', b :: l' => Ascii.eqb a b && prefix_of p' l'
  | _ :: _, [] => false
  end.
Fixpoint contains_l (p l : list ascii) : bool :=
  prefix_of p l || match l with [] => false | _ :: l' => contains_l p l' end.
Definition contains (sub s : string) : bool := contains_l (chars sub) (chars s).

(** [s[:n]] *)
Definition take (n : nat) (s : string) : string := substring 0 n s.

(** [' '.join(xs)] *)
Definition join (sep : string) (xs : list string) : string :=
  String.concat sep xs.

(** [str(n)] for a non-negative [int]. *)
Definition str_int (n : nat) : string := NilEmpty.string_of_uint (Nat.to_uint n).

(** [f"{n:03d}"] : left-padded with zeros to width 3. *)
Definition pad03 (n : nat) : string :=
  let s := str_int n in
  of_chars (repeat "0"%char (3 - String.length s)) ++ s.

End Py.

(* ------------------------------------------------------------------ *)
(** ** The [re] module *)

Module Re.
Import Py.

Inductive class_item : Type :=
| CChar (c : ascii)
| CRange (lo hi : ascii)
| CSpace | CDigit | CWord.

Inductive regex : Type :=
| REps
| RChar (c : ascii)
| RClass (neg : bool) (items : list class_item)
| RAny
| RBound
| RSeq (r1 r2 : regex)
| RAlt (r1 r2 : regex)
| RStar (greedy : bool) (r : regex)
| RGroup (n : nat) (r : regex).

(** *** Pattern syntax: the subset used by the source *)

Definition rep (r : regex) (n : nat) : regex :=
  Nat.iter n (fun acc => RSeq r acc) REps.
Fixpoint opt_chain (g : bool) (r : regex) (k : nat) : regex :=
  match k with
  | 0 => REps
  | S k' => if g then RAlt (RSeq r (opt_chain g r k')) REps
            else RAlt REps (RSeq r (opt_chain g r k'))
  end.

Inductive quant : Type := QStar | QPlus | QOpt | QRange (lo : nat) (hi : option nat).

Definition apply_quant (q : quant) (g : bool) (r : regex) : regex :=
  match q with
  | QStar => RStar g r
  | QPlus => RSeq r (RStar g r)
  | QOpt => opt_chain g r 1
  | QRange lo None => RSeq (rep r lo) (RStar g r)
  | QRange lo (Some hi) => RSeq (rep r lo) (opt_chain g r (hi - lo))
  end.

Definition digit_val (c : ascii) : nat := code c - 48.

Fixpoint p_num (l : list ascii) (acc : nat) (seen : bool) : option (nat * list ascii) :=
  match l with
  | c :: r => if is_digit c then p_num r (acc * 10 + digit_val c) true
              else if seen then Some (acc, l) else None
  | [] => if seen then Some (acc, l) else None
  end.

(** [{n}], [{n,}], [{n,m}] *)
Definition p_brace (l : list ascii) : option (quant * list ascii) :=
  match p_num l 0 false with
  | Some (lo, "}"%char :: r) => Some (QRange lo (Some lo), r)
  | Some (lo, ","%char :: "}"%char :: r) => Some (QRange lo None, r)
  | Some (lo, ","%char :: r) =>
      match p_num r 0 false with
      | Some (hi, "}"%char :: r') => Some (QRange lo (Some hi), r')
      | _ => None
      end
  | _ => None
  end.

Definition p_quant (l : list ascii) : option (quant * list ascii) :=
  match l with
  | "*"%char :: r => Some (QStar, r)
  | "+"%char :: r => Some (QPlus, r)
  | "?"%char :: r => Some (QOpt, r)
  | "{"%char :: r => p_brace r
  | _ => None
  end.

Definition esc_item (c : ascii) : class_item :=
  match c with
  | "s"%char => CSpace
  | "d"%char => CDigit
  | "w"%char => CWord
  | _ => CChar c
  end.

(** Items of a bracket class up to the closing [']']. *)
Fixpoint p_class (fuel : nat) (l : list ascii) : option (list class_item * list ascii) :=
  match fuel with
  | 0 => None
  | S f =>
      match l with
      | "]"%char :: r => Some ([], r)
      | "\"%char :: c :: r =>
          option_map (fun '(its, r') => (esc_item c :: its, r')) (p_class f r)
      | c :: "-"%char :: d :: r =>
          if Ascii.eqb d "]"%char then
            option_map (fun '(its, r') => (CChar c :: its, r')) (p_class f ("-"%char :: d :: r))
          else option_map (fun '(its, r') => (CRange c d :: its, r')) (p_class f r)
      | c :: r => option_map (fun '(its, r') => (CChar c :: its, r')) (p_class f r)
      | [] => None
      end
  end.

Definition p_escape (c : ascii) : regex :=
  match c with
  | "b"%char => RBound
  | "s"%char => RClass false [CSpace]
  | "d"%char => RClass false [CDigit]
  | "w"%char => RClass false [CWord]
  | _ => RChar c
  end.

(** Recursive descent: alternation, sequence, atom.  [g] is the number of
    capturing groups opened so far (groups are numbered by their [(]). *)
Fixpoint p_alt (fuel : nat) (l : list ascii) (g : nat) {struct fuel}
  : option (regex * list ascii * nat) :=
  match fuel with
  | 0 => None
  | S f =>
      match p_seq f l g with
      | Some (r1, "|"%char :: rest, g1) =>
          match p_alt f rest g1 with
          | Some (r2, rest', g2) => Some (RAlt r1 r2, rest', g2)
          | None => None
          end
      | res => res
      end
  end
with p_seq (fuel : nat) (l : list ascii) (g : nat) {struct fuel}
  : option (regex * list ascii * nat) :=
  match fuel with
  | 0 => None
  | S f =>
      match l with
      | [] => Some (REps, l, g)
      | "|"%char :: _ => Some (REps, l, g)
      | ")"%char :: _ => Some (REps, l, g)
      | _ =>
          match p_atom f l g with
          | Some (a, rest, g1) =>
              let '(a', rest', g1') :=
                match p_quant rest with
                | Some (q, "?"%char :: r) => (apply_quant q false a, r, g1)
                | Some (q, r) => (apply_quant q true a, r, g1)
                | None => (a, rest, g1)
                end in
              match p_seq f rest' g1' with
              | Some (tl, rest'', g2) => Some (RSeq a' tl, rest'', g2)
              | None => None
              end
          | None => None
          end
      end
  end
with p_atom (fuel : nat) (l : list ascii) (g : nat) {struct fuel}
  : option (regex * list ascii * nat) :=
  match fuel with
  | 0 => None
  | S f =>
      match l with
      | "("%char :: "?"%char :: ":"%char :: r =>
          match p_alt f r g with
          | Some (a, ")"%char :: rest, g1) => Some (a, rest, g1)
          | _ => None
          end
      | "("%char :: r =>
          match p_alt f r (S g) with
          | Some (a, ")"%char :: rest, g1) => Some (RGroup (S g) a, rest, g1)
          | _ => None
          end
      | "["%char :: "^"%char :: r =>
          option_map (fun '(its, rest) => (RClass true its, rest, g)) (p_class f r)
      | "["%char :: r =>
          option_map (fun '(its, rest) => (RClass false its, rest, g)) (p_class f r)
      | "\"%char :: c :: r => Some (p_escape c, r, g)
      | "."%char :: r => Some (RAny, r, g)
      | c :: r => Some (RChar c, r, g)
      | [] => None
      end
  end.

(** [re.compile(pattern)]; [None] where Python raises [re.error]. *)
Definition compile (pat : string) : option (regex * nat) :=
  let l := chars pat in
  match p_alt (4 * List.length l + 4) l 0 with
  | Some (r, [], ng) => Some (r, ng)
  | _ => None
  end.

(** *** Matching: leftmost, backtracking, as [sre] *)

Definition caps := list (nat * (nat * nat)).

Section Matcher.
Variable icase : bool.   (* [re.IGNORECASE] *)
Variable t : list ascii. (* the subject string *)

Definition char_at (i : nat) : option ascii := nth_error t i.

Definition item_matches (it : class_item) (c : ascii) : bool :=
  match it with
  | CChar d => Ascii.eqb c d
  | CRange lo hi => (code lo <=? code c) && (code c <=? code hi)
  | CSpace => is_space c
  | CDigit => is_digit c
  | CWord => is_word c
  end.

Definition in_items (its : list class_item) (c : ascii) : bool :=
  existsb (fun it => item_matches it c) its.

Definition class_matches (neg : bool) (its : list class_item) (c : ascii) : bool :=
  let hit := if icase
             then in_items its c || in_items its (to_lower c) || in_items its (to_upper c)
             else in_items its c in
  if neg then negb hit else hit.

Definition char_eq (c d : ascii) : bool :=
  if icase then Ascii.eqb (to_lower c) (to_lower d) else Ascii.eqb c d.

Definition word_at (i : nat) : bool :=
  match char_at i with Some c => is_word c | None => false end.

(** [\b] *)
Definition at_boundary (i : nat) : bool :=
  match i with
  | 0 => word_at 0
  | S j => xorb (word_at j) (word_at i)
  end.

(** [m r i cs k]: match [r] at position [i] with captures [cs], then the
    continuation [k]; the first success in backtracking order wins.  A
    repetition never iterates on an empty match, so the loop runs at most
    [length t - i + 1] times. *)
Fixpoint m (r : regex) (i : nat) (cs : caps) (k : nat -> caps -> option (nat * caps))
  {struct r} : option (nat * caps) :=
  match r with
  | REps => k i cs
  | RChar c =>
      match char_at i with
      | Some d => if char_eq c d then k (S i) cs else None
      | None => None
      end
  | RClass neg its =>
      match char_at i with
      | Some d => if class_matches neg its d then k (S i) cs else None
      | None => None
      end
  | RAny =>
      match char_at i with
      | Some d => if Ascii.eqb d "010"%char then None else k (S i) cs
      | None => None
      end
  | RBound => if at_boundary i then k i cs else None
  | RSeq r1 r2 => m r1 i cs (fun j cs' => m r2 j cs' k)
  | RAlt r1 r2 =>
      match m r1 i cs k with
      | Some x => Some x
      | None => m r2 i cs k
      end
  | RGroup n r1 => m r1 i cs (fun j cs' => k j ((n, (i, j)) :: cs'))
  | RStar g r1 =>
      let fix star (fuel i : nat) (cs : caps) {struct fuel} : option (nat * caps) :=
        match fuel with
        | 0 => k i cs
        | S f =>
            let more (_ : unit) :=
              m r1 i cs (fun j cs' => if j =? i then None else star f j cs') in
            if g then
              match more tt with Some x => Some x | None => k i cs end
            else
              match k i cs with Some x => Some x | None => more tt end
        end in
      star (S (List.length t - i)) i cs
  end.

Definition match_at (r : regex) (i : nat) : option (nat * caps) :=
  m r i [] (fun j cs => Some (j, cs)).

End Matcher.

Record Match : Type := mkMatch {
  m_subject : list ascii;
  m_start : nat;
  m_end : nat;
  m_caps : caps;
  m_ngroups : nat
}.

Definition slice (l : list ascii) (i j : nat) : string := of_chars (firstn (j - i) (skipn i l)).

(** [match.group(n)]; [None] for a group that did not take part. *)
Definition group (mt : Match) (n : nat) : option string :=
  match n with
  | 0 => Some (slice (m_subject mt) (m_start mt) (m_end mt))
  | _ =>
      match find (fun p => fst p =? n) (m_caps mt) with
      | Some (_, (i, j)) => Some (slice (m_subject mt) i j)
      | None => None
      end
  end.

(** [match.group(n)] of a group that always takes part. *)
Definition group_s (mt : Match) (n : nat) : string :=
  match group mt n with Some s => s | None => "" end.

(** [match.groups()] *)
Definition groups (mt : Match) : list (option string) :=
  map (group mt) (seq 1 (m_ngroups mt)).

Fixpoint scan (icase : bool) (t : list ascii) (r : regex) (ng : nat) (fuel i : nat)
  : list Match :=
  match fuel with
  | 0 => []
  | S f =>
      if List.length t <? i then []
      else
        match match_at icase t r i with
        | Some (j, cs) =>
            mkMatch t i j cs ng :: scan icase t r ng f (if j =? i then S i else j)
        | None => scan icase t r ng f (S i)
        end
  end.

(** [re.finditer(pattern, text, flags)] *)
Definition finditer (pat : string) (icase : bool) (text : string) : list Match :=
  match compile pat with
  | Some (r, ng) => let t := chars text in scan icase t r ng (S (List.length t)) 0
  | None => []
  end.

(** [re.findall(pattern, text, flags)] for patterns with at most one group
    (the only ones the source passes to [findall]). *)
Definition findall (pat : string) (icase : bool) (text : string) : list string :=
  map (fun mt => match m_ngroups mt with 0 => group_s mt 0 | _ => group_s mt 1 end)
      (finditer pat icase text).

(** [re.split(pattern, text)] for a pattern without groups. *)
Definition split (pat : string) (text : string) : list string :=
  let t := chars text in
  let ms := finditer pat false text in
  let fix go (ms : list Match) (prev : nat) : list string :=
    match ms with
    | [] => [slice t prev (List.length t)]
    | mt :: ms' => slice t prev (m_start mt) :: go ms' (m_end mt)
    end in
  go ms 0.

Example findall_words : findall "\b\w+\b" false "Hi, you-2!" = ["Hi"; "you"; "2"].
Proof. vm_compute. reflexivity. Qed.

Example split_sentences : split "[.!?]+" "A b. C?! d" = ["A b"; " C"; " d"].
Proof. vm_compute. reflexivity. Qed.

Example lazy_group :
  map groups (finditer "(?:need to|must|should|will|going to)\s+([^.!?]+?)(?:by|before|on)\s+([^.!?]+)" true
    "We will ship it by Friday.")
  = [[Some "ship it "; Some "Friday"]].
Proof. vm_compute. reflexivity. Qed.

End Re.

(* ------------------------------------------------------------------ *)
(** ** [text_parser.py]: primitive extractors *)

Module TextParser.
Import Py.

Record Entity : Type := mkEntity { e_type : string; e_value : string }.

(** The generic path's dicts [{'text': ..., 'priority': 'medium'}]. *)
Record SimpleAction : Type := mkSimpleAction { sa_text : string; sa_priority : string }.

(** [{'type': 'integer', 'value': int(num)}] or [{'type': 'decimal', ...}];
    a decimal keeps its literal, floating point is not embedded. *)
Inductive Number : Type :=
| NInteger (v : nat)
| NDecimal (literal : string).

Record ActionItem : Type := mkActionItem {
  ai_text : string;
  ai_assignee : option string;
  ai_due_date : option string;
  ai_priority : option string;   (* [None]: key absent *)
  ai_status : option string
}.

Record Structured : Type := mkStructured {
  st_entities : list Entity;
  st_key_phrases : list string;
  st_action_items : list SimpleAction;
  st_dates : list string;
  st_numbers : list Number;
  st_summary : string;
  st_word_count : nat;
  st_sentence_count : nat
}.

Record MeetingData : Type := mkMeetingData {
  summary : string;
  action_items : list ActionItem;
  key_decisions : list string;
  participants : list string;
  topics : list string;
  next_steps : list string;
  duration_estimate : string;
  entities : list Entity;
  dates : list string
}.

Definition mem (x : string) (l : list string) : bool := existsb (String.eqb x) l.

(** [for pattern in patterns: for match in re.finditer(pattern, text, flags): ...] *)
Definition scan_patterns {A : Type} (pats : list string) (icase : bool) (text : string)
  (f : Re.Match -> option A) : list A :=
  flat_map (fun p => flat_map (fun mt => match f mt with Some x => [x] | None => [] end)
                              (Re.finditer p icase text)) pats.

(** The [seen]-set loop: keep the first item of each key. *)
Fixpoint dedup_by {A : Type} (key : A -> string) (seen : list string) (l : list A) : list A :=
  match l with
  | [] => []
  | x :: r => if mem (key x) seen then dedup_by key seen r
              else x :: dedup_by key (key x :: seen) r
  end.

Definition extract_entities (text : string) : list Entity :=
  let emails := Re.findall "\b[A-Za-z0-9._%+-]+@[A-Za-z0-9.-]+\.[A-Z|a-z]{2,}\b" false text in
  let phones := Re.findall "\b\d{3}[-.]?\d{3}[-.]?\d{4}\b" false text in
  let urls := Re.findall "https?://[^\s]+" false text in
  let currency := Re.findall "\$\d+(?:,\d{3})*(?:\.\d{2})?" false text in
  let capitalized := Re.findall "\b[A-Z][a-z]+(?:\s+[A-Z][a-z]+)*\b" false text in
  map (mkEntity "EMAIL") emails ++ map (mkEntity "PHONE") phones
  ++ map (mkEntity "URL") urls ++ map (mkEntity "CURRENCY") currency
  ++ map (mkEntity "PERSON_OR_PLACE")
       (filter (fun cap => (2 <? String.length cap)
                           && negb (mem cap ["The"; "This"; "That"; "There"; "They"]))
               (firstn 10 capitalized)).

Definition stop_words : list string :=
  ["the"; "a"; "an"; "and"; "or"; "but"; "in"; "on"; "at"; "to"; "for"; "of"; "with";
   "by"; "is"; "are"; "was"; "were"; "be"; "been"; "have"; "has"; "had"; "do"; "does";
   "did"; "will"; "would"; "should"; "could"; "may"; "might"; "must"; "can"].

(** A Python [dict] in insertion order. *)
Fixpoint dict_get (d : list (string * nat)) (k : string) : option nat :=
  match d with
  | [] => None
  | (k', v) :: d' => if String.eqb k' k then Some v else dict_get d' k
  end.
Fixpoint dict_set (d : list (string * nat)) (k : string) (v : nat) : list (string * nat) :=
  match d with
  | [] => [(k, v)]
  | (k', v') :: d' => if String.eqb k' k then (k, v) :: d' else (k', v') :: dict_set d' k v
  end.

(** [word_freq[word] = word_freq.get(word, 0) + 1] *)
Definition bump (d : list (string * nat)) (w : string) : list (string * nat) :=
  dict_set d w (match dict_get d w with Some n => n | None => 0 end + 1).

(** [sorted(items, key=lambda x: x[1], reverse=True)]: stable, so an item
    goes after every item of greater or equal count. *)
Fixpoint insert_desc (x : string * nat) (l : list (string * nat)) : list (string * nat) :=
  match l with
  | [] => [x]
  | y :: l' => if snd y <? snd x then x :: l else y :: insert_desc x l'
  end.
Definition sort_desc (l : list (string * nat)) : list (string * nat) :=
  fold_left (fun acc x => insert_desc x acc) l [].

Definition meaningful_words (text : string) : list string :=
  filter (fun w => negb (mem w stop_words) && (3 <? String.length w))
         (Re.findall "\b\w+\b" false (lower text)).

Definition word_freq (ws : list string) : list (string * nat) := fold_left bump ws [].

Definition extract_key_phrases (text : string) : list string :=
  let sorted_phrases := sort_desc (word_freq (meaningful_words text)) in
  map fst (filter (fun p => 1 <? snd p) (firstn 10 sorted_phrases)).

Definition extract_action_items (text : string) : list SimpleAction :=
  let action_items :=
    scan_patterns
      ["(?:need to|must|should|will|going to)\s+([^.!?]+)";
       "(?:todo|task|action item)[:\s]+([^.!?]+)";
       "([A-Z][^.!?]*(?:do|complete|finish|start|create|build|implement)[^.!?]*)"]
      true text
      (fun mt => let action_text := strip (Re.group_s mt 1) in
                 if 10 <? String.length action_text
                 then Some (mkSimpleAction action_text "medium") else None) in
  firstn 5 (dedup_by sa_text [] action_items).

(** [int(num)] for a string of decimal digits. *)
Definition int_of (s : string) : nat :=
  fold_left (fun acc c => acc * 10 + (code c - 48)) (chars s) 0.

Definition extract_numbers (text : string) : list Number :=
  let integers := Re.findall "\b\d+\b" false text in
  let decimals := Re.findall "\b\d+\.\d+\b" false text in
  map (fun n => NInteger (int_of n)) (firstn 10 integers)
  ++ map NDecimal (firstn 10 decimals).

(** [[s.strip() for s in re.split(r'[.!?]+', text) if s.strip()]] *)
Definition sentences_of (text : string) : list string :=
  map strip (filter (fun s => negb (String.eqb (strip s) "")) (Re.split "[.!?]+" text)).

Definition generate_summary (text : string) : string :=
  let sentences := sentences_of text in
  match sentences with
  | [] => ""
  | s0 :: _ =>
      let summary :=
        if List.length sentences =? 1 then s0
        else if List.length sentences <=? 3 then join " " sentences
        else s0 ++ " ... " ++ last sentences "" in
      if 200 <? String.length summary then take 197 summary ++ "..." else summary
  end.

Definition estimate_meeting_duration (text : string) : string :=
  let word_count := List.length (split text) in
  let estimated_minutes := Nat.max 5 (word_count / 150) in
  if estimated_minutes <? 60 then "~" ++ str_int estimated_minutes ++ " minutes"
  else "~" ++ str_int (estimated_minutes / 60) ++ "h "
       ++ str_int (estimated_minutes mod 60) ++ "m".

(** [detect_priority] *)
Definition detect_priority (text : string) : string :=
  let text_lower := lower text in
  if existsb (fun w => contains w text_lower)
       ["urgent"; "asap"; "immediately"; "critical"; "important"] then "high"
  else if existsb (fun w => contains w text_lower) ["soon"; "priority"; "important"]
  then "medium"
  else "low".

(** Python truthiness of a [str]. *)
Definition truthy (s : string) : bool := negb (String.eqb s "").

Definition first_is_upper (s : string) : bool :=
  match s with String c _ => is_upper c | EmptyString => false end.

(** One [finditer] match of [extract_meeting_action_items]; every group of
    these patterns takes part in a match, so [groups()] holds strings. *)
Definition meeting_item_of (mt : Re.Match) : option ActionItem :=
  let gs := map (Re.group_s mt) (seq 1 (Re.m_ngroups mt)) in
  let n := List.length gs in
  if 2 <=? n then
    let g0 := nth 0 gs "" in
    let assignee := if (3 <=? n) && first_is_upper g0 then Some g0 else None in
    let action_text := if 3 <=? n then nth 1 gs "" else g0 in
    let due_date := last gs "" in
    if 10 <? String.length action_text then
      Some (mkActionItem (strip action_text) assignee
              (if truthy due_date then Some (strip due_date) else None)
              (Some (detect_priority action_text)) (Some "open"))
    else None
  else None.

Definition extract_meeting_action_items (text : string) : list ActionItem :=
  let action_items :=
    scan_patterns
      ["([A-Z][a-z]+(?:\s+[A-Z][a-z]+)?)\s+(?:will|should|needs? to|must)\s+([^.!?]+?)(?:by|before|on|due)\s+([^.!?]+)";
       "action item[:\s]+([^.!?]+?)(?:assignee|owner)[:\s]+([A-Z][a-z]+)";
       "([A-Z][a-z]+)\s+to\s+([^.!?]+?)(?:by|before|on)\s+([^.!?]+)";
       "(?:need to|must|should|will|going to)\s+([^.!?]+?)(?:by|before|on)\s+([^.!?]+)"]
      true text meeting_item_of in
  let action_items :=
    fold_left (fun acc action =>
                 if existsb (fun a => String.eqb (ai_text a) (sa_text action)) acc then acc
                 else (acc ++ [mkActionItem (sa_text action) None None
                                (Some (sa_priority action)) (Some "open")])%list)
              (extract_action_items text) action_items in
  firstn 10 (dedup_by (fun it => lower (ai_text it)) [] action_items).

Definition generate_meeting_summary (text : string) : string :=
  let sentences := sentences_of text in
  match sentences with
  | [] => ""
  | s0 :: _ =>
      let summary_sentences :=
        filter (fun s => existsb (fun kw => contains kw (lower s))
                           ["summary"; "conclusion"; "main point"; "key takeaway"; "overall"])
               sentences in
      match summary_sentences with
      | _ :: _ => join " " (firstn 3 summary_sentences)
      | [] => if List.length sentences <=? 3 then join " " sentences
              else s0 ++ " ... " ++ last sentences ""
      end
  end.

(** The extractors that end in [list(set(xs))].  CPython iterates a set of
    [str] in an order fixed by string hashing (randomised per process), so
    that order is a parameter [set_list]; [is_set_list] says what Python
    guarantees of it. *)
Definition is_set_list (set_list : list string -> list string) : Prop :=
  forall xs, NoDup (set_list xs) /\ (forall x, In x (set_list xs) <-> In x xs).

Section WithSetOrder.
Variable set_list : list string -> list string.

Definition extract_dates (text : string) : list string :=
  set_list (flat_map (fun p => Re.findall p true text)
    ["\b\d{1,2}[/-]\d{1,2}[/-]\d{2,4}\b";
     "\b(?:January|February|March|April|May|June|July|August|September|October|November|December)\s+\d{1,2},?\s+\d{4}\b";
     "\b\d{1,2}\s+(?:January|February|March|April|May|June|July|August|September|October|November|December)\s+\d{4}\b";
     "\b(?:Monday|Tuesday|Wednesday|Thursday|Friday|Saturday|Sunday)\b"]).

Definition extract_decisions (text : string) : list string :=
  let decisions :=
    scan_patterns
      ["decided to\s+([^.!?]+)"; "decision[:\s]+([^.!?]+)"; "agreed to\s+([^.!?]+)";
       "concluded that\s+([^.!?]+)"; "will\s+([^.!?]+?)(?:going forward|from now on)"]
      true text
      (fun mt => let decision := strip (Re.group_s mt 1) in
                 if 10 <? String.length decision then Some decision else None) in
  firstn 10 (set_list decisions).

Definition extract_participants (text : string) : list string :=
  let participants :=
    scan_patterns
      ["([A-Z][a-z]+(?:\s+[A-Z][a-z]+)?)\s+(?:said|mentioned|noted|asked|suggested|proposed|agreed)";
       "attendees?[:\s]+([^.!?]+)"; "participants?[:\s]+([^.!?]+)"]
      true text
      (fun mt => let participant := strip (Re.group_s mt 1) in
                 if negb (mem participant ["The"; "This"; "That"; "There"; "They"; "We"; "I"])
                    && (List.length (split participant) <=? 3)
                 then Some participant else None) in
  firstn 15 (set_list participants).

Definition extract_topics (text : string) : list string :=
  let topics :=
    scan_patterns
      ["topic[:\s]+([^.!?]+)"; "discussed\s+([^.!?]+)"; "regarding\s+([^.!?]+)";
       "about\s+([^.!?]+?)(?:\.|,|and)"]
      true text
      (fun mt => let topic := strip (Re.group_s mt 1) in
                 if (5 <? String.length topic) && (String.length topic <? 50)
                 then Some topic else None) in
  let topics := (topics ++ firstn 5 (extract_key_phrases text))%list in
  firstn 10 (set_list topics).

Definition extract_next_steps (text : string) : list string :=
  let next_steps :=
    scan_patterns
      ["next step[:\s]+([^.!?]+)"; "going forward[,\s]+([^.!?]+)"; "next[,\s]+([^.!?]+)";
       "follow up[:\s]+([^.!?]+)"]
      true text
      (fun mt => let step := strip (Re.group_s mt 1) in
                 if 10 <? String.length step then Some step else None) in
  firstn 5 (set_list next_steps).

Definition parse_text_to_structured (text : string) : Structured :=
  mkStructured (extract_entities text) (extract_key_phrases text)
    (extract_action_items text) (extract_dates text) (extract_numbers text)
    (generate_summary text) (List.length (split text))
    (List.length (Re.split "[.!?]+" text)).

(** The rule-based ("regex") path of [parse_meeting_text]. *)
Definition regex_meeting_data (text : string) : MeetingData :=
  mkMeetingData (generate_meeting_summary text) (extract_meeting_action_items text)
    (extract_decisions text) (extract_participants text) (extract_topics text)
    (extract_next_steps text) (estimate_meeting_duration text)
    (extract_entities text) (extract_dates text).

End WithSetOrder.

End TextParser.

(* ------------------------------------------------------------------ *)
(** ** [parse_meeting_text] and the alternate (Bedrock) extractor *)

Module Orchestrator.
Import Py TextParser.

(** The JSON object [extract_with_bedrock] returns; [None] is a missing key,
    read with [result.get(key, default)]. *)
Record BedrockJson : Type := mkBedrockJson {
  bj_summary : option string;
  bj_action_items : option (list ActionItem);
  bj_key_decisions : option (list string);
  bj_participants : option (list string);
  bj_topics : option (list string);
  bj_next_steps : option (list string)
}.

(** A Python call that returns a value or raises an exception [e]
    ([str(e)] kept). *)
Inductive Outcome (A : Type) : Type :=
| Returned (a : A)
| Raised (msg : string).
Arguments Returned {A} a.
Arguments Raised {A} msg.

(** The world the orchestrator runs in: whether [from bedrock_extractor
    import ...] succeeds, and what the network call [extract_with_bedrock]
    does on a text. *)
Record BedrockEnv : Type := mkBedrockEnv {
  importable : bool;
  extract_with_bedrock : string -> Outcome BedrockJson
}.

(** A Python [dict] returned as meeting data: [{}] or the nine fields. *)
Inductive PyDict : Type :=
| DictEmpty
| DictMeeting (d : MeetingData).

(** What [parse_meeting_text] returns: the meeting [dict] itself, or the
    tuple it forwards from [extract_meeting_data_with_bedrock]. *)
Inductive ParseResult : Type :=
| ResDict (d : MeetingData)
| ResTriple (d : PyDict) (bedrock_used : bool) (bedrock_error : option string).

Definition get_or {A : Type} (o : option A) (dflt : A) : A :=
  match o with Some a => a | None => dflt end.

(** [bedrock_extractor.estimate_meeting_duration]: the same body as the one
    of [text_parser]. *)
Definition bedrock_estimate_meeting_duration (text : string) : string :=
  let word_count := List.length (split text) in
  let estimated_minutes := Nat.max 5 (word_count / 150) in
  if estimated_minutes <? 60 then "~" ++ str_int estimated_minutes ++ " minutes"
  else "~" ++ str_int (estimated_minutes / 60) ++ "h "
       ++ str_int (estimated_minutes mod 60) ++ "m".

(** [extract_meeting_data_with_bedrock]: catches every exception itself and
    reports it in the third component. *)
Definition extract_meeting_data_with_bedrock (env : BedrockEnv) (text : string)
  : PyDict * bool * option string :=
  match extract_with_bedrock env text with
  | Returned result =>
      (DictMeeting
         (mkMeetingData (get_or (bj_summary result) "") (get_or (bj_action_items result) [])
            (get_or (bj_key_decisions result) []) (get_or (bj_participants result) [])
            (get_or (bj_topics result) []) (get_or (bj_next_steps result) [])
            (bedrock_estimate_meeting_duration text) [] []),
       true, None)
  | Raised e => (DictEmpty, false, Some e)
  end.

(** [parse_meeting_text(text, use_bedrock)]: with [use_bedrock] and a
    successful import, the result of [extract_meeting_data_with_bedrock] is
    returned as it is ([return result]); an [ImportError] or
    [use_bedrock=False] reaches the rule-based path. *)
Definition parse_meeting_text (set_list : list string -> list string) (env : BedrockEnv)
  (text : string) (use_bedrock : bool) : ParseResult :=
  if use_bedrock && importable env then
    let '(d, used, err) := extract_meeting_data_with_bedrock env text in
    ResTriple d used err
  else ResDict (regex_meeting_data set_list text).

(** An alternate extractor that always fails. *)
Definition always_fails (env : BedrockEnv) : Prop :=
  forall text, exists e, extract_with_bedrock env text = Raised e.

End Orchestrator.

(* ------------------------------------------------------------------ *)
(** ** [map_to_requirements_format] *)

Module Requirements.
Import Py TextParser.

Record Requirement : Type := mkRequirement {
  r_id : string;
  r_title : string;
  r_description : string;
  r_type : string;
  r_priority : string;
  r_status : string;
  r_assignee : option string;
  r_due_date : option string;
  r_acceptance_criteria : list string;
  r_source : string;
  r_related_decisions : list string
}.

Definition generate_acceptance_criteria (action_text : string) : list string :=
  let l := lower action_text in
  let criteria :=
    ((if contains "complete" l then ["Task is completed and verified"] else [])
    ++ (if contains "review" l then ["Review is completed and feedback provided"] else [])
    ++ (if contains "implement" l || contains "build" l
        then ["Implementation is complete and tested"] else [])
    ++ (if contains "create" l then ["Deliverable is created and approved"] else []))%list in
  match criteria with
  | [] => ["Action item is completed as specified"; "Completion is verified and documented"]
  | _ => criteria
  end.

Definition req_id (idx : nat) : string := "REQ-" ++ pad03 idx.

Definition action_requirement (idx : nat) (action : ActionItem) (decisions : list string)
  : Requirement :=
  let text := ai_text action in
  mkRequirement (req_id idx)
    (take 100 text ++ (if 100 <? String.length text then "..." else ""))
    text "functional" (Orchestrator.get_or (ai_priority action) "medium") "draft"
    (ai_assignee action) (ai_due_date action)
    (generate_acceptance_criteria text) "meeting_action_item"
    (filter (fun decision =>
               existsb (fun word => contains word (lower text))
                       (firstn 3 (split (lower decision))))
            decisions).

Definition decision_requirement (idx : nat) (decision : string) : Requirement :=
  mkRequirement (req_id idx) ("Decision: " ++ take 80 decision) decision
    "non-functional" "medium" "draft" None None
    ["Decision documented and communicated"] "meeting_decision" [decision].

(** [for idx, action in enumerate(action_items, 1)] *)
Fixpoint map_actions (idx : nat) (acts : list ActionItem) (decisions : list string)
  : list Requirement :=
  match acts with
  | [] => []
  | a :: r => action_requirement idx a decisions :: map_actions (S idx) r decisions
  end.

(** [for idx, decision in enumerate(key_decisions, len(requirements) + 1):
       if len(decision) > 20: ...] *)
Fixpoint map_decisions (idx : nat) (ds : list string) : list Requirement :=
  match ds with
  | [] => []
  | d :: r =>
      if 20 <? String.length d then decision_requirement idx d :: map_decisions (S idx) r
      else map_decisions (S idx) r
  end.

Definition map_to_requirements_format (md : MeetingData) : list Requirement :=
  let requirements := map_actions 1 (action_items md) (key_decisions md) in
  (requirements ++ map_decisions (List.length requirements + 1) (key_decisions md))%list.

End Requirements.

(* ------------------------------------------------------------------ *)
(** ** Concrete inputs *)

Module Inputs.
Import TextParser.

Definition report_item : ActionItem :=
  mkActionItem "Prepare the quarterly report" None None (Some "medium") (Some "open").

(** One action item; a short decision (10 characters) followed by a
    substantial one (33 characters). *)
Definition md_short_then_long : MeetingData :=
  mkMeetingData "" [report_item] ["Use Python"; "Adopt the new deployment pipeline"]
    [] [] [] "~5 minutes" [] [].

(** One action item and one decision of length 10. *)
Definition md_one_short : MeetingData :=
  mkMeetingData "" [report_item] ["Use Python"] [] [] [] "~5 minutes" [] [].

Definition sample_text : string :=
  "John will finish the report by Friday. The team decided to launch next month.".

(** The import succeeds, and every Bedrock call raises. *)
Definition bedrock_down : Orchestrator.BedrockEnv :=
  Orchestrator.mkBedrockEnv true
    (fun _ => Orchestrator.Raised "Bedrock extraction failed: no credentials").

(** One admissible iteration order of a Python [set] of [str]. *)
Definition some_set_order : list string -> list string := nodup string_dec.

End Inputs.

(* ------------------------------------------------------------------ *)
(** ** Views used to state the properties, and the spec's key-phrase
    extraction *)

Module Views.
Import Py TextParser Requirements.

(** The fields of a requirement that the decision mapping fixes. *)
Definition decision_view (r : Requirement)
  : string * string * string * string * list string * list string :=
  (r_type r, r_priority r, r_source r, r_title r, r_acceptance_criteria r,
   r_related_decisions r).

Definition decision_expected (d : string)
  : string * string * string * string * list string * list string :=
  ("non-functional", "medium", "meeting_decision", "Decision: " ++ take 80 d,
   ["Decision documented and communicated"], [d]).

(** The fixed sentences of [generate_acceptance_criteria]. *)
Definition keyword_criteria : list string :=
  ["Task is completed and verified"; "Review is completed and feedback provided";
   "Implementation is complete and tested"; "Deliverable is created and approved"].

Definition default_criteria : list string :=
  ["Action item is completed as specified"; "Completion is verified and documented"].

Definition has_keyword (s : string) : bool :=
  existsb (fun k => contains k (lower s)) ["complete"; "review"; "implement"; "build"; "create"].

(** Modelled from the spec: the key-phrase extraction as the spec words it,
    a reference to compare [extract_key_phrases] with: lower-case, tokenize on
    word boundaries, drop stop-words and tokens of length <= 3, count each
    distinct token (in order of first occurrence), sort by descending count
    keeping ties in their original order, keep the counts above 1, cap at 10. *)
Definition distinct (ws : list string) : list string := dedup_by (fun w => w) [] ws.

Definition count (ws : list string) (w : string) : nat :=
  List.length (filter (String.eqb w) ws).

Definition spec_counts (ws : list string) : list (string * nat) :=
  map (fun w => (w, count ws w)) (distinct ws).

(** [n; n-1; ...; 0] *)
Fixpoint down (n : nat) : list nat :=
  match n with
  | 0 => [0]
  | S k => S k :: down k
  end.

(** Descending by count, ties in original order: the items of the largest
    count first, then the next count, and so on. *)
Definition spec_sort (ps : list (string * nat)) : list (string * nat) :=
  flat_map (fun f => filter (fun p => snd p =? f) ps) (down (list_max (map snd ps))).

Definition spec_key_phrases (text : string) : list string :=
  let tokens := Re.findall "\b\w+\b" false (lower text) in
  let kept := filter (fun w => negb (mem w stop_words) && negb (String.length w <=? 3)) tokens in
  firstn 10 (map fst (filter (fun p => 1 <? snd p) (spec_sort (spec_counts kept)))).

End Views.

(* ------------------------------------------------------------------ *)
(** ** [s3_storage.py]: the object layout of a meeting *)

Module S3Storage.
Import Py.

(** [f"transcriptions/{meeting_id}/{file}"] *)
Definition meeting_key (meeting_id file : string) : string :=
  "transcriptions/" ++ meeting_id ++ "/" ++ file.

Definition transcription_key (meeting_id : string) : string :=
  meeting_key meeting_id "transcription.txt".
Definition summary_key (meeting_id : string) : string := meeting_key meeting_id "summary.json".
Definition requirements_key (meeting_id : string) : string :=
  meeting_key meeting_id "requirements.json".
Definition metadata_key (meeting_id : string) : string := meeting_key meeting_id "metadata.json".

(** The objects of the bucket, key first, at most one per key.  A body
    stands for the value the code reads back from it ([.decode('utf-8')] or
    [json.loads] of what [put_object] wrote). *)
Definition Bucket : Type := list (string * string).

(** [s3_client.get_object(Bucket=..., Key=k)]; [None] is [NoSuchKey]. *)
Definition get_object (b : Bucket) (k : string) : option string :=
  match find (fun p => String.eqb (fst p) k) b with
  | Some (_, v) => Some v
  | None => None
  end.

(** [s3_client.put_object(Bucket=..., Key=k, Body=v)] replaces the object. *)
Definition put_object (b : Bucket) (k v : string) : Bucket :=
  (k, v) :: filter (fun p => negb (String.eqb (fst p) k)) b.

(** [key.startswith(prefix)], the [Prefix=] filter of a listing. *)
Definition starts_with (prefix key : string) : bool := prefix_of (chars prefix) (chars key).

(** The four [put_object] calls of [store_meeting_data], in order, with the
    bodies it writes: the text, then the [summary], [requirements] and
    [metadata] documents. *)
Definition store_meeting_data (b : Bucket) (meeting_id transcription_text summary_data
  requirements_data metadata : string) : Bucket :=
  let b := put_object b (transcription_key meeting_id) transcription_text in
  let b := put_object b (summary_key meeting_id) summary_data in
  let b := put_object b (requirements_key meeting_id) requirements_data in
  put_object b (metadata_key meeting_id) metadata.

(** [retrieve_meeting_data]: the four [get_object] calls; a missing key
    ([NoSuchKey]) becomes [ValueError(f"Meeting {meeting_id} not found")]. *)
Definition retrieve_meeting_data (b : Bucket) (meeting_id : string)
  : Orchestrator.Outcome (string * string * string * string) :=
  match get_object b (transcription_key meeting_id), get_object b (summary_key meeting_id),
        get_object b (requirements_key meeting_id), get_object b (metadata_key meeting_id) with
  | Some t, Some s, Some r, Some m => Orchestrator.Returned (t, s, r, m)
  | _, _, _, _ => Orchestrator.Raised ("Meeting " ++ meeting_id ++ " not found")
  end.

(** [delete_meeting_data] (S3 part): every object listed under
    [f"transcriptions/{meeting_id}/"] is passed to [delete_objects], which is
    called only when that list is not empty. *)
Definition delete_meeting_data (b : Bucket) (meeting_id : string) : Bucket :=
  let prefix := "transcriptions/" ++ meeting_id ++ "/" in
  let objects_to_delete := filter (fun p => starts_with prefix (fst p)) b in
  match objects_to_delete with
  | [] => b
  | _ => filter (fun p => negb (starts_with prefix (fst p))) b
  end.

(** [s.replace(old, new)] for a non-empty [old]: left to right, without
    overlaps. *)
Fixpoint replace_aux (old new : list ascii) (fuel : nat) (l : list ascii) : list ascii :=
  match fuel with
  | 0 => l
  | S f =>
      match l with
      | [] => []
      | c :: r =>
          if prefix_of old l then (new ++ replace_aux old new f (skipn (List.length old) l))%list
          else c :: replace_aux old new f r
      end
  end.
Definition replace (old new s : string) : string :=
  of_chars (replace_aux (chars old) (chars new) (String.length s) (chars s)).

(** [s.rstrip('/')] *)
Fixpoint drop_slash (l : list ascii) : list ascii :=
  match l with
  | c :: r => if Ascii.eqb c "/"%char then drop_slash r else l
  | [] => []
  end.
Definition rstrip_slash (s : string) : string := of_chars (rev (drop_slash (rev (chars s)))).

(** What a [list_objects_v2] page with [Delimiter='/'] gives for a key under
    [prefix]: the key up to the first ['/'] after the prefix, in
    [CommonPrefixes]. *)
Fixpoint upto_slash (l : list ascii) : option (list ascii) :=
  match l with
  | [] => None
  | c :: r =>
      if Ascii.eqb c "/"%char then Some [c]
      else match upto_slash r with Some p => Some (c :: p) | None => None end
  end.
Definition common_prefix (prefix key : string) : option string :=
  if starts_with prefix key then
    match upto_slash (skipn (String.length prefix) (chars key)) with
    | Some p => Some (prefix ++ of_chars p)
    | None => None
    end
  else None.

(** [list_meetings]: [prefix_info['Prefix'].replace('transcriptions/', '').rstrip('/')] *)
Definition meeting_id_of_prefix (p : string) : string :=
  rstrip_slash (replace "transcriptions/" "" p).

End S3Storage.

(* ------------------------------------------------------------------ *)
(** ** [app.py]: the endpoints around the parser *)

Module App.
Import Py TextParser Orchestrator Requirements.

(** [ALLOWED_EXTENSIONS] *)
Definition ALLOWED_EXTENSIONS : list string :=
  ["mp3"; "mp4"; "wav"; "m4a"; "flac"; "webm"; "ogg"].

(** The characters after the last [c] (all of them if there is no [c]):
    [s.rsplit(c, 1)[-1]], and [p[p.rfind('/') + 1:]]. *)
Fixpoint after_last_l (c : ascii) (l acc : list ascii) : list ascii :=
  match l with
  | [] => acc
  | d :: r => if Ascii.eqb d c then after_last_l c r [] else after_last_l c r (acc ++ [d])%list
  end.
Definition after_last (c : ascii) (s : string) : string := of_chars (after_last_l c (chars s) []).

(** [allowed_file] *)
Definition allowed_file (filename : string) : bool :=
  contains "." filename && mem (lower (after_last "." filename)) ALLOWED_EXTENSIONS.

(** [os.path.basename] (POSIX) *)
Definition basename (p : string) : string := after_last "/" p.

Definition ends_with_slash (a : string) : bool :=
  match rev (chars a) with c :: _ => Ascii.eqb c "/"%char | [] => false end.

(** [os.path.join(a, b)] (POSIX, two arguments) *)
Definition join_path (a b : string) : string :=
  match chars b with
  | c :: _ =>
      if Ascii.eqb c "/"%char then b
      else if String.eqb a "" || ends_with_slash a then a ++ b else a ++ "/" ++ b
  | [] => if String.eqb a "" || ends_with_slash a then a ++ b else a ++ "/" ++ b
  end.

(** [get_file]: the local path it tests and the S3 key it falls back to. *)
Definition get_file_paths (filename : string) : string * string :=
  let safe_filename := basename filename in
  (join_path "uploads" safe_filename, "meetings/" ++ safe_filename).

(** The JSON body of a request to [/api/meeting/process]; [None] is a
    missing key.  [use_bedrock] is read as a JSON boolean. *)
Record Request : Type := mkRequest {
  rq_text : option string;
  rq_use_bedrock : option bool;
  rq_audio_s3_key : option string;
  rq_s3_key : option string;
  rq_filename : option string
}.

(** The process environment and the services [process_meeting] calls:
    [str(uuid.uuid4())] for [generate_meeting_id], and [store_meeting_data]
    (meeting id, audio key, text, meeting data, requirements, and the
    metadata [filename], [extraction_method], [bedrock_used]). *)
Record AppEnv : Type := mkAppEnv {
  env_USE_BEDROCK : option string;
  env_AWS_BEDROCK_API_KEY : option string;
  env_STORE_IN_S3 : option string;
  bedrock : BedrockEnv;
  uuid4 : string;
  store_meeting_data : string -> string -> string -> PyDict -> list Requirement
                       -> string * string * bool -> Outcome unit
}.

(** The JSON body of the response; [bedrock_warning] is the fixed sentence
    built from [bedrock_error] and is left out. *)
Inductive Body : Type :=
| BodyError (error : string)
| BodyMeeting (original_text : string) (meeting_summary : PyDict)
    (requirements : list Requirement) (extraction_method : string)
    (bedrock_used : bool) (meeting_id : option string) (bedrock_error : option string).

(** The status code, the body, and the meeting id whose data the call to
    [store_meeting_data] did store (its effect on the bucket). *)
Record Reply : Type := mkReply {
  status : nat;
  body : Body;
  stored : option string
}.

(** [os.getenv(name, default)] *)
Definition getenv (v : option string) (dflt : string) : string := get_or v dflt.

Definition truthy_opt (o : option string) : bool :=
  match o with Some s => truthy s | None => false end.

(** [a or b] on two values of [data.get]. *)
Definition py_or (a b : option string) : option string := if truthy_opt a then a else b.

(** [generate_meeting_id] *)
Definition generate_meeting_id (uuid : string) : string := "meeting-" ++ uuid.

(** The choice of extractor: the request parameter, else [USE_BEDROCK], else
    the presence of an API key. *)
Definition decide_use_bedrock (use_bedrock_request : option bool) (env : AppEnv) : bool :=
  match use_bedrock_request with
  | Some b => b
  | None =>
      if String.eqb (lower (getenv (env_USE_BEDROCK env) "false")) "true" then true
      else if truthy_opt (env_AWS_BEDROCK_API_KEY env) then true
      else false
  end.

(** [meeting_data, bedrock_used, bedrock_error = parse_meeting_text(...)]:
    a tuple of three unpacks; iterating the rule-based [dict] gives its
    nine keys, and the assignment raises [ValueError]. *)
Definition unpack3 (r : ParseResult) : Outcome (PyDict * bool * option string) :=
  match r with
  | ResTriple d used err => Returned (d, used, err)
  | ResDict _ => Raised "too many values to unpack (expected 3)"
  end.

(** The meeting data [map_to_requirements_format] reads from a [dict]: it
    only reads [action_items] and [key_decisions], both [[]] in [{}]. *)
Definition dict_meeting_data (d : PyDict) : MeetingData :=
  match d with
  | DictMeeting md => md
  | DictEmpty => mkMeetingData "" [] [] [] [] [] "" [] []
  end.

(** [process_meeting]; [None] for [data] is a request without a JSON body. *)
Definition process_meeting (set_list : list string -> list string) (env : AppEnv)
  (data : option Request) : Reply :=
  match data with
  | None => mkReply 500 (BodyError "'NoneType' object has no attribute 'get'") None
  | Some rq =>
      let text := get_or (rq_text rq) "" in
      let use_bedrock := decide_use_bedrock (rq_use_bedrock rq) env in
      if negb (truthy text) then mkReply 400 (BodyError "Text is required") None
      else
        match unpack3 (parse_meeting_text set_list (bedrock env) text use_bedrock) with
        | Raised e => mkReply 500 (BodyError e) None
        | Returned (meeting_data, bedrock_used, bedrock_error) =>
            let requirements := map_to_requirements_format (dict_meeting_data meeting_data) in
            let extraction_method := if bedrock_used then "bedrock" else "regex" in
            let store_in_s3 :=
              String.eqb (lower (getenv (env_STORE_IN_S3 env) "true")) "true" in
            let audio_s3_key := py_or (rq_audio_s3_key rq) (rq_s3_key rq) in
            let '(meeting_id, stored) :=
              if store_in_s3 && truthy_opt audio_s3_key then
                let meeting_id := generate_meeting_id (uuid4 env) in
                match store_meeting_data env meeting_id (get_or audio_s3_key "") text
                        meeting_data requirements
                        (get_or (rq_filename rq) "unknown", extraction_method, bedrock_used) with
                | Returned _ => (Some meeting_id, Some meeting_id)
                | Raised _ => (Some meeting_id, None)   (* logged, then ignored *)
                end
              else (None, None) in
            mkReply 200
              (BodyMeeting text meeting_data requirements extraction_method bedrock_used
                 (if truthy_opt meeting_id then meeting_id else None)
                 (if truthy_opt bedrock_error then bedrock_error else None))
              stored
        end
  end.


End App.

(** Concrete requests and environments for [process_meeting]. *)
Module AppInputs.
Import Orchestrator App.

Definition sample_request : Request :=
  mkRequest (Some Inputs.sample_text) None (Some "meetings/standup.mp3") None None.

(** No [USE_BEDROCK], no API key, [STORE_IN_S3] unset (so ["true"]), and a
    store that succeeds. *)
Definition no_config_env : AppEnv :=
  mkAppEnv None None None Inputs.bedrock_down "1b4e28ba-2fa1-11d2-883f-0016d3cca427"
    (fun _ _ _ _ _ _ => Returned tt).

(** [USE_BEDROCK=TRUE], every Bedrock call raising, and every
    [store_meeting_data] call raising. *)
Definition outage_env : AppEnv :=
  mkAppEnv (Some "TRUE") None None Inputs.bedrock_down "1b4e28ba-2fa1-11d2-883f-0016d3cca427"
    (fun _ _ _ _ _ _ => Raised "An error occurred (AccessDenied) when calling the PutObject operation").

End AppInputs.

(* ------------------------------------------------------------------ *)
(** ** Properties *)

Module Props.
Import Py TextParser Orchestrator Requirements Inputs Views.

Lemma some_set_order_ok : is_set_list some_set_order.
Proof.
  intros xs. split.
  - apply NoDup_nodup.
  - intros x. apply nodup_In.
Qed.

Lemma set_list_nil (set_list : list string -> list string) :
  is_set_list set_list -> set_list [] = [].
Proof.
  intros H. destruct (set_list []) as [|x r] eqn:E; [reflexivity|].
  exfalso. destruct (H []) as [_ Hin]. apply (proj1 (Hin x)). rewrite E. left; reflexivity.
Qed.

(** C1: decision IDs are numbered by position in [key_decisions], so a
    skipped short decision leaves a gap in the sequence. *)
Theorem C1_decision_ids_gap :
  map r_id (map_to_requirements_format md_short_then_long) = ["REQ-001"; "REQ-003"]
  /\ map r_source (map_to_requirements_format md_short_then_long)
     = ["meeting_action_item"; "meeting_decision"].
Proof. split; vm_compute; reflexivity. Qed.

(** C2: with the import working and every Bedrock call raising,
    [parse_meeting_text(text, True)] returns the tuple [({}, False, error)]
    forwarded from [extract_meeting_data_with_bedrock], while
    [parse_meeting_text(text, False)] returns the rule-based meeting [dict]
    itself (not a triple), whose action items are not empty. *)
Theorem C2_bedrock_failure_not_fallback :
  parse_meeting_text some_set_order bedrock_down sample_text true
  = ResTriple DictEmpty false (Some "Bedrock extraction failed: no credentials")
  /\ parse_meeting_text some_set_order bedrock_down sample_text false
     = ResDict (regex_meeting_data some_set_order sample_text)
  /\ action_items (regex_meeting_data some_set_order sample_text) <> [].
Proof.
  split; [reflexivity|]. split; [reflexivity|].
  vm_compute. discriminate.
Qed.

(** C3: [sentence_count] is the number of pieces of [re.split], empty ones
    included: ["Hello world."] has one non-empty segment but a count of 2;
    [word_count] is 2, the number of whitespace-separated tokens. *)
Theorem C3_sentence_count_counts_empty_pieces (set_list : list string -> list string) :
  st_sentence_count (parse_text_to_structured set_list "Hello world.") = 2
  /\ List.length (sentences_of "Hello world.") = 1
  /\ st_word_count (parse_text_to_structured set_list "Hello world.") = 2.
Proof. vm_compute. repeat split. Qed.

(** C4 (counterexample): the primitive extractor [estimate_meeting_duration]
    gives ["~5 minutes"] on the empty text, neither an empty string nor a
    zero count. *)
Lemma C4_duration_of_empty_text :
  estimate_meeting_duration "" = "~5 minutes" /\ estimate_meeting_duration "" <> "".
Proof. split; [reflexivity | discriminate]. Qed.

(** C4 (amended): on the empty text, for any iteration order of Python sets,
    [parse_text_to_structured] has every list field empty, [summary = ""] and
    [word_count = 0]; every list-valued extractor returns [[]], both
    summaries are [""], and the duration estimate is its floor
    ["~5 minutes"]. *)
Theorem C4_empty_text_defaults (set_list : list string -> list string)
  (Hset : is_set_list set_list) :
  let st := parse_text_to_structured set_list "" in
  st_entities st = [] /\ st_key_phrases st = [] /\ st_action_items st = []
  /\ st_dates st = [] /\ st_numbers st = [] /\ st_summary st = "" /\ st_word_count st = 0
  /\ extract_entities "" = [] /\ extract_key_phrases "" = [] /\ extract_action_items "" = []
  /\ extract_dates set_list "" = [] /\ extract_numbers "" = []
  /\ generate_summary "" = "" /\ generate_meeting_summary "" = ""
  /\ extract_meeting_action_items "" = [] /\ extract_decisions set_list "" = []
  /\ extract_participants set_list "" = [] /\ extract_topics set_list "" = []
  /\ extract_next_steps set_list "" = [] /\ estimate_meeting_duration "" = "~5 minutes".
Proof.
  pose proof (set_list_nil set_list Hset) as Hnil.
  cbv zeta. vm_compute. rewrite Hnil. repeat split.
Qed.

Lemma C4_empty_text_defaults_witness :
  is_set_list some_set_order /\ extract_topics some_set_order "" = []
  /\ st_summary (parse_text_to_structured some_set_order "") = "".
Proof.
  pose proof (C4_empty_text_defaults some_set_order some_set_order_ok) as H.
  cbv zeta in H. split; [exact some_set_order_ok | tauto].
Defined.

(** *** Deduplication and caps *)

Lemma mem_In (x : string) (l : list string) : mem x l = true <-> In x l.
Proof.
  unfold mem. rewrite existsb_exists. split.
  - intros [y [Hy Heq]]. apply String.eqb_eq in Heq. subst y. exact Hy.
  - intros Hx. exists x. split; [exact Hx | apply String.eqb_refl].
Qed.

Lemma dedup_by_fresh {A : Type} (key : A -> string) (l : list A) :
  forall seen x, In x (dedup_by key seen l) -> ~ In (key x) seen.
Proof.
  induction l as [|a l IH]; simpl; intros seen x Hx; [contradiction|].
  destruct (mem (key a) seen) eqn:Hm.
  - exact (IH seen x Hx).
  - destruct Hx as [<- | Hx].
    + intros Hin. apply mem_In in Hin. congruence.
    + intros Hin. apply (IH (key a :: seen) x Hx). right. exact Hin.
Qed.

Lemma dedup_by_NoDup {A : Type} (key : A -> string) (l : list A) :
  forall seen, NoDup (map key (dedup_by key seen l)).
Proof.
  induction l as [|a l IH]; simpl; intros seen; [constructor|].
  destruct (mem (key a) seen); [apply IH|].
  simpl. constructor; [|apply IH].
  intros Hin. apply in_map_iff in Hin. destruct Hin as [y [Hy Hyin]].
  apply (dedup_by_fresh key l (key a :: seen) y Hyin). rewrite Hy. left. reflexivity.
Qed.

Lemma NoDup_firstn_of {A : Type} (n : nat) (l : list A) : NoDup l -> NoDup (firstn n l).
Proof.
  intros H. rewrite <- (firstn_skipn n l) in H. exact (NoDup_app_remove_r _ _ H).
Qed.

(** C6: for any iteration order of Python sets, no two meeting action items
    have the same lower-cased text, and [key_decisions], [participants],
    [topics] and [next_steps] hold no string twice. *)
Theorem C6_no_duplicates (set_list : list string -> list string)
  (Hset : is_set_list set_list) (text : string) :
  NoDup (map (fun it => lower (ai_text it)) (extract_meeting_action_items text))
  /\ NoDup (extract_decisions set_list text)
  /\ NoDup (extract_participants set_list text)
  /\ NoDup (extract_topics set_list text)
  /\ NoDup (extract_next_steps set_list text).
Proof.
  unfold extract_meeting_action_items, extract_decisions, extract_participants,
    extract_topics, extract_next_steps.
  repeat split;
    try (apply NoDup_firstn_of; apply (proj1 (Hset _))).
  rewrite <- firstn_map. apply NoDup_firstn_of. apply dedup_by_NoDup.
Qed.

Lemma C6_no_duplicates_witness :
  is_set_list some_set_order /\ NoDup (extract_decisions some_set_order sample_text).
Proof.
  split; [exact some_set_order_ok|].
  exact (proj1 (proj2 (C6_no_duplicates some_set_order some_set_order_ok sample_text))).
Defined.

(** C7: the caps hold on every text, whatever the set iteration order:
    at most 10 meeting action items, 5 generic action items, 10 decisions,
    15 participants, 10 topics and 5 next steps. *)
Theorem C7_caps (set_list : list string -> list string) (text : string) :
  List.length (extract_meeting_action_items text) <= 10
  /\ List.length (extract_action_items text) <= 5
  /\ List.length (extract_decisions set_list text) <= 10
  /\ List.length (extract_participants set_list text) <= 15
  /\ List.length (extract_topics set_list text) <= 10
  /\ List.length (extract_next_steps set_list text) <= 5.
Proof.
  unfold extract_meeting_action_items, extract_action_items, extract_decisions,
    extract_participants, extract_topics, extract_next_steps.
  repeat split; apply firstn_le_length.
Qed.

(** *** The requirements mapper *)

Lemma map_actions_length i acts ds : List.length (map_actions i acts ds) = List.length acts.
Proof. revert i; induction acts; simpl; auto. Qed.

Lemma map_actions_source i acts ds :
  map r_source (map_actions i acts ds) = repeat "meeting_action_item" (List.length acts).
Proof. revert i; induction acts; simpl; intros; f_equal; auto. Qed.

Lemma map_decisions_view i ds :
  map decision_view (map_decisions i ds)
  = map decision_expected (filter (fun d => 20 <? String.length d) ds).
Proof.
  revert i; induction ds as [|d ds IH]; simpl; intros i; [reflexivity|].
  destruct (20 <? String.length d); simpl; rewrite IH; reflexivity.
Qed.

Lemma map_to_requirements_split md :
  map_to_requirements_format md
  = (map_actions 1 (action_items md) (key_decisions md)
     ++ map_decisions (List.length (action_items md) + 1) (key_decisions md))%list.
Proof. unfold map_to_requirements_format. rewrite map_actions_length. reflexivity. Qed.

(** C5: after the [n] requirements of the [n] action items (all with source
    ["meeting_action_item"]) come exactly the requirements of the decisions
    longer than 20 characters, in order, each with type ["non-functional"],
    priority ["medium"], source ["meeting_decision"], title
    ["Decision: "] plus the first 80 characters, the single criterion
    ["Decision documented and communicated"] and related decisions
    [[decision]]; one action item and one decision of at most 20 (so of 10)
    characters give exactly one requirement. *)
Theorem C5_decision_requirements :
  (forall md : MeetingData,
     let n := List.length (action_items md) in
     let reqs := map_to_requirements_format md in
     map r_source (firstn n reqs) = repeat "meeting_action_item" n
     /\ map decision_view (skipn n reqs)
        = map decision_expected (filter (fun d => 20 <? String.length d) (key_decisions md)))
  /\ (forall (md : MeetingData) (a : ActionItem) (d : string),
        action_items md = [a] -> key_decisions md = [d] -> String.length d <= 20 ->
        List.length (map_to_requirements_format md) = 1).
Proof.
  split.
  - intros md n reqs. subst n reqs. rewrite map_to_requirements_split. split.
    + rewrite firstn_app, map_actions_length, Nat.sub_diag, firstn_O, app_nil_r.
      rewrite <- (map_actions_length 1 (action_items md) (key_decisions md)) at 1.
      rewrite firstn_all, map_actions_source. reflexivity.
    + rewrite skipn_app, map_actions_length, Nat.sub_diag, skipn_O.
      rewrite <- (map_actions_length 1 (action_items md) (key_decisions md)) at 1.
      rewrite skipn_all. apply map_decisions_view.
  - intros md a d Ha Hd Hlen. unfold map_to_requirements_format. rewrite Ha, Hd. simpl.
    replace (20 <? String.length d) with false by (symmetry; apply Nat.ltb_ge; lia).
    reflexivity.
Qed.

Lemma C5_decision_requirements_witness :
  String.length "Use Python" = 10
  /\ List.length (map_to_requirements_format md_one_short) = 1.
Proof.
  split; [reflexivity|].
  apply (proj2 C5_decision_requirements md_one_short report_item "Use Python");
    [reflexivity | reflexivity | simpl; lia].
Defined.

(** *** Duration *)

(** C9: [m = max(5, word_count // 150)], printed as ["~{m} minutes"] below
    60 and as ["~{m // 60}h {m % 60}m"] otherwise; under 750 words the
    estimate is ["~5 minutes"]. *)
Theorem C9_duration (text : string) :
  let word_count := List.length (split text) in
  let m := Nat.max 5 (word_count / 150) in
  estimate_meeting_duration text
  = (if m <? 60 then "~" ++ str_int m ++ " minutes"
     else "~" ++ str_int (m / 60) ++ "h " ++ str_int (m mod 60) ++ "m")
  /\ (word_count < 750 -> estimate_meeting_duration text = "~5 minutes").
Proof.
  intros word_count m. split; [reflexivity|].
  intros Hlt. unfold estimate_meeting_duration. fold word_count.
  assert (Hd : word_count / 150 <= 4).
  { apply Nat.lt_succ_r. apply Nat.Div0.div_lt_upper_bound. lia. }
  replace (Nat.max 5 (word_count / 150)) with 5 by lia.
  reflexivity.
Qed.

Lemma C9_duration_witness :
  List.length (split "") < 750 /\ estimate_meeting_duration "" = "~5 minutes".
Proof.
  split; [simpl; lia|].
  apply (proj2 (C9_duration "")). simpl. lia.
Defined.

(** *** Acceptance criteria *)

Lemma generate_acceptance_criteria_cases (s : string) :
  1 <= List.length (generate_acceptance_criteria s) <= 4
  /\ (has_keyword s = true ->
      forall c, In c (generate_acceptance_criteria s) -> In c keyword_criteria)
  /\ (has_keyword s = false -> generate_acceptance_criteria s = default_criteria).
Proof.
  unfold generate_acceptance_criteria, has_keyword. simpl.
  destruct (contains "complete" (lower s)), (contains "review" (lower s)),
    (contains "implement" (lower s)), (contains "build" (lower s)),
    (contains "create" (lower s)); simpl;
    (split; [lia|]); split; intros H; try discriminate; try reflexivity;
    intros c Hc; unfold keyword_criteria; simpl in *; tauto.
Qed.

Lemma in_map_actions r i acts ds :
  In r (map_actions i acts ds) ->
  exists j a, r = action_requirement j a ds.
Proof.
  revert i; induction acts as [|a acts IH]; simpl; intros i H; [contradiction|].
  destruct H as [<- | H]; [eauto | exact (IH _ H)].
Qed.

Lemma in_map_decisions r i ds :
  In r (map_decisions i ds) -> exists j d, r = decision_requirement j d.
Proof.
  revert i; induction ds as [|d ds IH]; simpl; intros i H; [contradiction|].
  destruct (20 <? String.length d); [destruct H as [<- | H]; [eauto|]|]; exact (IH _ H).
Qed.

(** C10: [generate_acceptance_criteria] returns between 1 and 4 criteria,
    only keyword-triggered ones when one of [complete], [review],
    [implement], [build], [create] occurs in the lower-cased text, and
    exactly the two defaults otherwise; every requirement of
    [map_to_requirements_format] has an acceptance criterion. *)
Theorem C10_acceptance_criteria :
  (forall s : string,
     1 <= List.length (generate_acceptance_criteria s) <= 4
     /\ (has_keyword s = true ->
         forall c, In c (generate_acceptance_criteria s) -> In c keyword_criteria)
     /\ (has_keyword s = false -> generate_acceptance_criteria s = default_criteria))
  /\ (forall (md : MeetingData) (r : Requirement),
        In r (map_to_requirements_format md) -> r_acceptance_criteria r <> []).
Proof.
  split; [exact generate_acceptance_criteria_cases|].
  intros md r Hr. unfold map_to_requirements_format in Hr.
  apply in_app_or in Hr. destruct Hr as [Hr | Hr].
  - destruct (in_map_actions _ _ _ _ Hr) as [j [a ->]]. simpl.
    destruct (generate_acceptance_criteria_cases (ai_text a)) as [[Hlen _] _].
    destruct (generate_acceptance_criteria (ai_text a)); simpl in *; [lia | discriminate].
  - destruct (in_map_decisions _ _ _ Hr) as [j [d ->]]. discriminate.
Qed.

Lemma C10_acceptance_criteria_witness :
  has_keyword "Plan the offsite" = false
  /\ generate_acceptance_criteria "Plan the offsite" = default_criteria.
Proof.
  split; [vm_compute; reflexivity|].
  apply (proj2 (proj2 (proj1 C10_acceptance_criteria "Plan the offsite"))).
  vm_compute. reflexivity.
Defined.

(** *** Key phrases: the stable descending sort *)

Definition ge_snd (p q : string * nat) : Prop := snd q <= snd p.

Definition with_count (f : nat) (l : list (string * nat)) : list (string * nat) :=
  filter (fun p => snd p =? f) l.

Lemma with_count_none f l :
  (forall z, In z l -> snd z <> f) -> with_count f l = [].
Proof.
  unfold with_count. induction l as [|a l IH]; simpl; intros H; [reflexivity|].
  destruct (Nat.eqb_spec (snd a) f) as [E|E]; [exfalso; exact (H a (or_introl eq_refl) E)|].
  apply IH. intros z Hz. apply H. right. exact Hz.
Qed.

Lemma StronglySorted_app_of (l1 l2 : list (string * nat)) :
  StronglySorted ge_snd l1 -> StronglySorted ge_snd l2 ->
  (forall x y, In x l1 -> In y l2 -> ge_snd x y) ->
  StronglySorted ge_snd (app l1 l2).
Proof.
  induction l1 as [|a l1 IH]; simpl; intros H1 H2 H; [exact H2|].
  apply StronglySorted_inv in H1. destruct H1 as [H1 Ha].
  constructor.
  - apply IH; auto.
  - apply Forall_app. split; [exact Ha|].
    apply Forall_forall. intros y Hy. apply H; auto.
Qed.

Lemma in_insert_desc z x l : In z (insert_desc x l) <-> z = x \/ In z l.
Proof.
  induction l as [|y l IH]; simpl; [intuition (subst; auto)|].
  destruct (snd y <? snd x); simpl; [intuition (subst; auto)|].
  rewrite IH. intuition (subst; auto).
Qed.

Lemma insert_desc_sorted x l :
  StronglySorted ge_snd l -> StronglySorted ge_snd (insert_desc x l).
Proof.
  induction l as [|y l IH]; simpl; intros H.
  - repeat constructor.
  - apply StronglySorted_inv in H as Hinv. destruct Hinv as [Hl Hy].
    destruct (Nat.ltb_spec (snd y) (snd x)) as [Lt|Ge].
    + constructor; [exact H|]. constructor; [unfold ge_snd; lia|].
      eapply Forall_impl; [|exact Hy]. unfold ge_snd. intros z Hz. lia.
    + constructor; [apply IH; exact Hl|].
      apply Forall_forall. intros z Hz. apply in_insert_desc in Hz.
      destruct Hz as [-> | Hz]; [unfold ge_snd; lia|].
      rewrite Forall_forall in Hy. apply Hy. exact Hz.
Qed.

Lemma insert_desc_with_count f x l :
  StronglySorted ge_snd l ->
  with_count f (insert_desc x l) = app (with_count f l) (if snd x =? f then [x] else []).
Proof.
  induction l as [|y l IH]; intros H; [reflexivity|].
  apply StronglySorted_inv in H as Hinv. destruct Hinv as [Hl Hy].
  cbn [insert_desc]. destruct (Nat.ltb_spec (snd y) (snd x)) as [Lt|Ge].
  - change (with_count f (x :: y :: l))
      with (if snd x =? f then x :: with_count f (y :: l) else with_count f (y :: l)).
    destruct (Nat.eqb_spec (snd x) f) as [Ex|Ex].
    + rewrite with_count_none; [reflexivity|].
      intros z [<- | Hz]; [lia|]. rewrite Forall_forall in Hy. specialize (Hy z Hz).
      unfold ge_snd in Hy. lia.
    + rewrite app_nil_r. reflexivity.
  - change (with_count f (y :: insert_desc x l))
      with (if snd y =? f then y :: with_count f (insert_desc x l)
            else with_count f (insert_desc x l)).
    change (with_count f (y :: l))
      with (if snd y =? f then y :: with_count f l else with_count f l).
    rewrite IH by exact Hl. destruct (snd y =? f); reflexivity.
Qed.

Lemma fold_insert_sorted l acc :
  StronglySorted ge_snd acc ->
  StronglySorted ge_snd (fold_left (fun acc x => insert_desc x acc) l acc).
Proof.
  revert acc; induction l as [|x l IH]; simpl; intros acc H; [exact H|].
  apply IH. apply insert_desc_sorted. exact H.
Qed.

Lemma fold_insert_with_count f l acc :
  StronglySorted ge_snd acc ->
  with_count f (fold_left (fun acc x => insert_desc x acc) l acc)
  = app (with_count f acc) (with_count f l).
Proof.
  revert acc; induction l as [|x l IH]; simpl; intros acc H.
  - rewrite app_nil_r. reflexivity.
  - rewrite IH by (apply insert_desc_sorted; exact H).
    rewrite insert_desc_with_count by exact H. rewrite <- app_assoc.
    unfold with_count at 3. simpl. destruct (snd x =? f); reflexivity.
Qed.

Lemma sort_desc_sorted l : StronglySorted ge_snd (sort_desc l).
Proof. apply fold_insert_sorted. constructor. Qed.

Lemma sort_desc_with_count f l : with_count f (sort_desc l) = with_count f l.
Proof. unfold sort_desc. rewrite fold_insert_with_count by constructor. reflexivity. Qed.

(** Two lists sorted by descending count with the same items of each count,
    in the same order, are equal. *)
Lemma stable_sort_unique (l1 l2 : list (string * nat)) :
  StronglySorted ge_snd l1 -> StronglySorted ge_snd l2 ->
  (forall f, with_count f l1 = with_count f l2) -> l1 = l2.
Proof.
  revert l2; induction l1 as [|x l1 IH]; intros l2 H1 H2 H.
  - destruct l2 as [|y l2]; [reflexivity|].
    specialize (H (snd y)). unfold with_count in H. simpl in H.
    rewrite Nat.eqb_refl in H. discriminate.
  - destruct l2 as [|y l2].
    + specialize (H (snd x)). unfold with_count in H. simpl in H.
      rewrite Nat.eqb_refl in H. discriminate.
    + apply StronglySorted_inv in H1. destruct H1 as [S1 F1].
      apply StronglySorted_inv in H2. destruct H2 as [S2 F2].
      rewrite Forall_forall in F1, F2. unfold ge_snd in F1, F2.
      destruct (Nat.lt_trichotomy (snd x) (snd y)) as [Lt|[Eq|Gt]].
      * specialize (H (snd y)). unfold with_count in H. simpl in H.
        rewrite Nat.eqb_refl in H.
        replace (snd x =? snd y) with false in H by (symmetry; apply Nat.eqb_neq; lia).
        fold (with_count (snd y) l1) in H. rewrite with_count_none in H; [discriminate|].
        intros z Hz. specialize (F1 z Hz). lia.
      * assert (Hxy : x = y).
        { specialize (H (snd x)). unfold with_count in H. simpl in H.
          rewrite Nat.eqb_refl, <- Eq, Nat.eqb_refl in H. injection H. auto. }
        subst y. f_equal. apply IH; [exact S1 | exact S2|].
        intros f. specialize (H f). unfold with_count in H |- *. simpl in H.
        destruct (snd x =? f); [injection H; auto | exact H].
      * specialize (H (snd x)). unfold with_count in H. simpl in H.
        rewrite Nat.eqb_refl in H.
        replace (snd y =? snd x) with false in H by (symmetry; apply Nat.eqb_neq; lia).
        fold (with_count (snd x) l2) in H. rewrite with_count_none in H; [discriminate|].
        intros z Hz. specialize (F2 z Hz). lia.
Qed.

(** *** Key phrases: the spec's sort *)

Lemma with_count_keys f l z : In z (with_count f l) -> snd z = f.
Proof. unfold with_count. rewrite filter_In. intros [_ H]. apply Nat.eqb_eq. exact H. Qed.

Lemma same_count_sorted c l : (forall z, In z l -> snd z = c) -> StronglySorted ge_snd l.
Proof.
  induction l as [|a l IH]; intros H; constructor.
  - apply IH. intros z Hz. apply H. right. exact Hz.
  - apply Forall_forall. intros z Hz. unfold ge_snd.
    rewrite (H z (or_intror Hz)), (H a (or_introl eq_refl)). lia.
Qed.

Lemma flat_down_sorted ps M :
  StronglySorted ge_snd (flat_map (fun f => with_count f ps) (down M))
  /\ (forall z, In z (flat_map (fun f => with_count f ps) (down M)) -> snd z <= M).
Proof.
  induction M as [|k [IHs IHb]]; simpl.
  - rewrite app_nil_r. split.
    + apply (same_count_sorted 0). intros z Hz. exact (with_count_keys _ _ _ Hz).
    + intros z Hz. rewrite (with_count_keys _ _ _ Hz). lia.
  - split.
    + apply StronglySorted_app_of; [| exact IHs |].
      * apply (same_count_sorted (S k)). intros z Hz. exact (with_count_keys _ _ _ Hz).
      * intros x y Hx Hy. unfold ge_snd. rewrite (with_count_keys _ _ _ Hx).
        specialize (IHb y Hy). lia.
    + intros z Hz. apply in_app_or in Hz. destruct Hz as [Hz|Hz].
      * rewrite (with_count_keys _ _ _ Hz). lia.
      * specialize (IHb z Hz). lia.
Qed.

Lemma with_count_flat_map f (g : nat -> list (string * nat)) fs :
  with_count f (flat_map g fs) = flat_map (fun f' => with_count f (g f')) fs.
Proof.
  induction fs as [|a fs IH]; simpl; [reflexivity|].
  unfold with_count at 1. rewrite filter_app. fold (with_count f (g a)).
  fold (with_count f (flat_map g fs)). rewrite IH. reflexivity.
Qed.

Lemma with_count_twice f f' ps :
  with_count f (with_count f' ps) = if f' =? f then with_count f ps else [].
Proof.
  unfold with_count. induction ps as [|a ps IH]; simpl.
  - destruct (f' =? f); reflexivity.
  - destruct (Nat.eqb_spec (snd a) f') as [E1|E1]; simpl;
      destruct (Nat.eqb_spec (snd a) f) as [E2|E2];
      destruct (Nat.eqb_spec f' f) as [E3|E3]; rewrite ?IH; try reflexivity; lia.
Qed.

Lemma flat_down_select (F : list (string * nat)) f M :
  flat_map (fun f' => if f' =? f then F else []) (down M) = if f <=? M then F else [].
Proof.
  induction M as [|k IH]; cbn [down flat_map].
  - rewrite app_nil_r. destruct (Nat.eqb_spec 0 f), (Nat.leb_spec f 0);
      try reflexivity; lia.
  - rewrite IH. destruct (Nat.eqb_spec (S k) f), (Nat.leb_spec f k), (Nat.leb_spec f (S k));
      rewrite ?app_nil_r; try reflexivity; lia.
Qed.

Lemma spec_sort_sorted ps : StronglySorted ge_snd (spec_sort ps).
Proof. apply flat_down_sorted. Qed.

Lemma snd_le_list_max (ps : list (string * nat)) z : In z ps -> snd z <= list_max (map snd ps).
Proof.
  intros Hz. pose proof (proj1 (list_max_le (map snd ps) (list_max (map snd ps))) (le_n _)) as H.
  rewrite Forall_forall in H. apply H. apply in_map. exact Hz.
Qed.

Lemma spec_sort_with_count f ps : with_count f (spec_sort ps) = with_count f ps.
Proof.
  unfold spec_sort. rewrite with_count_flat_map.
  erewrite flat_map_ext; [| intros f'; apply with_count_twice].
  rewrite flat_down_select. destruct (Nat.leb_spec f (list_max (map snd ps))) as [Le|Gt];
    [reflexivity|].
  symmetry. apply with_count_none. intros z Hz E. pose proof (snd_le_list_max ps z Hz). lia.
Qed.

Lemma sort_desc_spec_sort ps : sort_desc ps = spec_sort ps.
Proof.
  apply stable_sort_unique; [apply sort_desc_sorted | apply spec_sort_sorted|].
  intros f. rewrite sort_desc_with_count, spec_sort_with_count. reflexivity.
Qed.

(** *** Key phrases: the frequency dict *)

Lemma mem_ext x l1 l2 : (forall y, In y l1 <-> In y l2) -> mem x l1 = mem x l2.
Proof.
  intros H. destruct (mem x l1) eqn:E1, (mem x l2) eqn:E2; try reflexivity.
  - apply mem_In, H, mem_In in E1. congruence.
  - apply mem_In, H, mem_In in E2. congruence.
Qed.

Lemma dedup_id_In seen l x :
  In x (dedup_by (fun w => w) seen l) <-> In x l /\ ~ In x seen.
Proof.
  revert seen; induction l as [|a l IH]; simpl; intros seen; [tauto|].
  destruct (mem a seen) eqn:Ha.
  - rewrite IH. apply mem_In in Ha. split; [tauto|].
    intros [[<- | Hx] Hn]; [contradiction | tauto].
  - simpl. rewrite IH. simpl. split.
    + intros [<- | [Hx Hn]]; [split; [left; reflexivity | intros Hin; apply mem_In in Hin; congruence]|].
      split; [right; exact Hx | tauto].
    + intros [[<- | Hx] Hn]; [left; reflexivity|].
      destruct (String.eqb_spec a x) as [->|Ne]; [left; reflexivity|].
      right. split; [exact Hx|]. intros [E|E]; [congruence | contradiction].
Qed.

Lemma dedup_id_snoc seen l x :
  dedup_by (fun w => w) seen (app l [x])
  = app (dedup_by (fun w => w) seen l) (if mem x (app seen l) then [] else [x]).
Proof.
  revert seen; induction l as [|a l IH]; simpl; intros seen.
  - rewrite app_nil_r. destruct (mem x seen); reflexivity.
  - destruct (mem a seen) eqn:Ha.
    + rewrite IH. replace (mem x (app seen (a :: l))) with (mem x (app seen l));
        [reflexivity|].
      apply mem_ext. intros y.
      apply mem_In in Ha. rewrite !in_app_iff. simpl. intuition (subst; auto).
    + simpl. rewrite IH. replace (mem x (app seen (a :: l))) with (mem x (app (a :: seen) l));
        [reflexivity|].
      apply mem_ext. intros y. rewrite !in_app_iff. simpl. tauto.
Qed.

Lemma count_snoc l x w :
  count (app l [x]) w = count l w + (if String.eqb w x then 1 else 0).
Proof.
  unfold count. rewrite filter_app, length_app. simpl. destruct (String.eqb w x); reflexivity.
Qed.

Lemma count_absent l x : ~ In x l -> count l x = 0.
Proof.
  intros H. unfold count. destruct (filter (String.eqb x) l) as [|y r] eqn:E; [reflexivity|].
  exfalso. assert (Hy : In y (filter (String.eqb x) l)) by (rewrite E; left; reflexivity).
  apply filter_In in Hy. destruct Hy as [Hy Heq]. apply String.eqb_eq in Heq. subst. auto.
Qed.

Lemma dict_get_map (f : string -> nat) D x :
  dict_get (map (fun w => (w, f w)) D) x = if mem x D then Some (f x) else None.
Proof.
  induction D as [|w D IH]; simpl; [reflexivity|].
  rewrite IH. destruct (String.eqb_spec w x) as [->|Ne].
  - rewrite String.eqb_refl. reflexivity.
  - replace (String.eqb x w) with false by (symmetry; apply String.eqb_neq; auto).
    reflexivity.
Qed.

Lemma dict_set_map_in (f : string -> nat) D x v :
  NoDup D -> In x D ->
  dict_set (map (fun w => (w, f w)) D) x v
  = map (fun w => (w, if String.eqb w x then v else f w)) D.
Proof.
  induction D as [|w D IH]; simpl; intros Hnd Hin; [contradiction|].
  apply NoDup_cons_iff in Hnd. destruct Hnd as [Hw Hnd].
  destruct (String.eqb_spec w x) as [->|Ne].
  - f_equal. apply map_ext_in. intros y Hy.
    replace (String.eqb y x) with false; [reflexivity|].
    symmetry. apply String.eqb_neq. intros ->. contradiction.
  - destruct Hin as [E|Hin]; [congruence|]. f_equal. apply IH; assumption.
Qed.

Lemma dict_set_map_notin (f : string -> nat) D x v :
  ~ In x D -> dict_set (map (fun w => (w, f w)) D) x v = app (map (fun w => (w, f w)) D) [(x, v)].
Proof.
  induction D as [|w D IH]; simpl; intros Hn; [reflexivity|].
  destruct (String.eqb_spec w x) as [->|Ne]; [exfalso; auto|].
  f_equal. apply IH. auto.
Qed.

Lemma word_freq_spec_counts ws : word_freq ws = spec_counts ws.
Proof.
  induction ws as [|x ws IH] using rev_ind; [reflexivity|].
  unfold word_freq in *. rewrite fold_left_app, IH. simpl.
  unfold spec_counts, distinct, bump. rewrite dict_get_map, dedup_id_snoc. simpl.
  assert (Hmem : mem x (dedup_by (fun w => w) [] ws) = mem x ws).
  { apply mem_ext. intros y. rewrite dedup_id_In. simpl. tauto. }
  assert (Hnd : NoDup (dedup_by (fun w => w) [] ws)).
  { pose proof (dedup_by_NoDup (fun w : string => w) ws []) as H. rewrite map_id in H. exact H. }
  rewrite Hmem. destruct (mem x ws) eqn:Hx.
  - rewrite app_nil_r. rewrite dict_set_map_in; [| exact Hnd |].
    2: { apply dedup_id_In. split; [apply mem_In; exact Hx | simpl; tauto]. }
    apply map_ext. intros w. rewrite count_snoc.
    destruct (String.eqb_spec w x) as [->|Ne]; f_equal; lia.
  - assert (Hnx : ~ In x ws) by (intros Hin; apply mem_In in Hin; congruence).
    rewrite dict_set_map_notin.
    2: { rewrite dedup_id_In. tauto. }
    rewrite map_app. simpl. f_equal.
    + apply map_ext_in. intros w Hw. rewrite count_snoc.
      apply dedup_id_In in Hw. destruct Hw as [Hw _].
      destruct (String.eqb_spec w x) as [->|Ne]; [contradiction | f_equal; lia].
    + rewrite count_snoc, String.eqb_refl, count_absent by exact Hnx. reflexivity.
Qed.

(** *** Key phrases: capping before or after the count filter *)

Lemma filter_none {A : Type} (p : A -> bool) l :
  (forall y, In y l -> p y = false) -> filter p l = [].
Proof.
  induction l as [|a l IH]; simpl; intros H; [reflexivity|].
  rewrite (H a (or_introl eq_refl)). apply IH. intros y Hy. apply H. right. exact Hy.
Qed.

Lemma in_firstn_in {A : Type} n (l : list A) y : In y (firstn n l) -> In y l.
Proof. intros H. rewrite <- (firstn_skipn n l). apply in_or_app. left. exact H. Qed.

Lemma filter_firstn_sorted n l :
  StronglySorted ge_snd l ->
  filter (fun p => 1 <? snd p) (firstn n l) = firstn n (filter (fun p => 1 <? snd p) l).
Proof.
  revert n; induction l as [|x l IH]; intros n H; [destruct n; reflexivity|].
  destruct n as [|n]; [reflexivity|].
  apply StronglySorted_inv in H. destruct H as [Hs Hf]. rewrite Forall_forall in Hf.
  cbn [firstn filter]. destruct (Nat.ltb_spec 1 (snd x)) as [Lt|Ge].
  - cbn [firstn]. f_equal. apply IH. exact Hs.
  - assert (Hnone : forall y, In y l -> (1 <? snd y) = false).
    { intros y Hy. apply Nat.ltb_ge. specialize (Hf y Hy). unfold ge_snd in Hf. lia. }
    rewrite (filter_none _ l Hnone).
    apply filter_none. intros y Hy. apply Hnone. exact (in_firstn_in n l y Hy).
Qed.

(** C8: [extract_key_phrases] equals the spec's reference: lower-case,
    tokenize on word boundaries, drop stop-words and tokens of length <= 3,
    count, sort by descending count with ties in original order (stable),
    keep the tokens whose count exceeds 1, at most 10 of them. *)
Theorem C8_key_phrases_reference (text : string) :
  extract_key_phrases text = spec_key_phrases text.
Proof.
  unfold extract_key_phrases, spec_key_phrases, meaningful_words.
  erewrite filter_ext with (f := fun w => negb (mem w stop_words) && (3 <? String.length w)).
  2: { intros w. rewrite Nat.ltb_antisym. reflexivity. }
  rewrite word_freq_spec_counts, firstn_map, <- sort_desc_spec_sort.
  rewrite filter_firstn_sorted by apply sort_desc_sorted. reflexivity.
Qed.

End Props.

(* ------------------------------------------------------------------ *)
(** ** Further properties of the code *)

Module Extras.
Import Py TextParser Orchestrator Requirements Inputs Views Props.

(** *** String facts *)

Lemma str_length_app (a b : string) : String.length (a ++ b) = String.length a + String.length b.
Proof. induction a as [|c a IH]; simpl; [reflexivity | rewrite IH; reflexivity]. Qed.

Lemma chars_app (a b : string) : chars (a ++ b) = (chars a ++ chars b)%list.
Proof. induction a as [|c a IH]; simpl; [reflexivity | unfold chars in *; rewrite IH; reflexivity]. Qed.

Lemma chars_of_chars (l : list ascii) : chars (of_chars l) = l.
Proof. apply list_ascii_of_string_of_list_ascii. Qed.

Lemma of_chars_chars (s : string) : of_chars (chars s) = s.
Proof. apply string_of_list_ascii_of_string. Qed.

Lemma length_chars (s : string) : List.length (chars s) = String.length s.
Proof. induction s as [|c s IH]; simpl; [reflexivity | unfold chars in *; rewrite IH; reflexivity]. Qed.

Lemma length_of_chars (l : list ascii) : String.length (of_chars l) = List.length l.
Proof. rewrite <- length_chars, chars_of_chars. reflexivity. Qed.

Lemma substring_0_le (n : nat) (s : string) : String.length (substring 0 n s) <= n.
Proof.
  revert s; induction n as [|n IH]; intros s; destruct s as [|c s]; simpl; try lia.
  specialize (IH s). lia.
Qed.

Lemma substring_0_all (n : nat) (s : string) : String.length s <= n -> substring 0 n s = s.
Proof.
  revert s; induction n as [|n IH]; intros s H; destruct s as [|c s]; simpl in *;
    try reflexivity; try lia.
  rewrite IH by lia. reflexivity.
Qed.

Lemma app_nonempty_l (a b : string) : a <> "" -> a ++ b <> "".
Proof. destruct a; simpl; [contradiction | discriminate]. Qed.

Lemma app_nonempty_r (a b : string) : b <> "" -> a ++ b <> "".
Proof. destruct a; simpl; [tauto | discriminate]. Qed.

Lemma join_nonempty (sep x : string) (xs : list string) : x <> "" -> join sep (x :: xs) <> "".
Proof.
  intros H. unfold join. simpl. destruct xs; [exact H | apply app_nonempty_l; exact H].
Qed.

(** *** Where the items of an extractor come from *)

Lemma in_scan_patterns {A : Type} pats icase text (f : Re.Match -> option A) x :
  In x (scan_patterns pats icase text f) -> exists mt, f mt = Some x.
Proof.
  unfold scan_patterns. rewrite in_flat_map. intros [p [_ H]]. rewrite in_flat_map in H.
  destruct H as [mt [_ H]]. exists mt.
  destruct (f mt); [destruct H as [<- | []]; reflexivity | contradiction].
Qed.

Lemma in_dedup_by {A : Type} (key : A -> string) seen (l : list A) x :
  In x (dedup_by key seen l) -> In x l.
Proof.
  revert seen; induction l as [|a l IH]; simpl; intros seen H; [contradiction|].
  destruct (mem (key a) seen); [right; exact (IH _ H)|].
  destruct H as [<- | H]; [left; reflexivity | right; exact (IH _ H)].
Qed.

Lemma in_set_list (set_list : list string -> list string) (Hset : is_set_list set_list) n xs x :
  In x (firstn n (set_list xs)) -> In x xs.
Proof. intros H. apply (proj2 (Hset xs) x). exact (in_firstn_in n _ x H). Qed.

Lemma in_sentences_of (text s : string) : In s (sentences_of text) -> s <> "".
Proof.
  unfold sentences_of. rewrite in_map_iff. intros [y [<- Hy]]. apply filter_In in Hy.
  destruct Hy as [_ H]. intros E. rewrite E in H. discriminate.
Qed.

Lemma detect_priority_cases (t : string) :
  detect_priority t = "high" \/ detect_priority t = "medium" \/ detect_priority t = "low".
Proof.
  unfold detect_priority.
  destruct (existsb _ ["urgent"; "asap"; "immediately"; "critical"; "important"]);
    [tauto|].
  destruct (existsb _ ["soon"; "priority"; "important"]); tauto.
Qed.

Lemma in_fold_simple (simple : list SimpleAction) (acc : list ActionItem) x :
  In x (fold_left (fun acc action =>
                     if existsb (fun a => String.eqb (ai_text a) (sa_text action)) acc then acc
                     else (acc ++ [mkActionItem (sa_text action) None None
                                    (Some (sa_priority action)) (Some "open")])%list)
                  simple acc) ->
  In x acc \/ exists a, In a simple /\ x = mkActionItem (sa_text a) None None
                                            (Some (sa_priority a)) (Some "open").
Proof.
  revert acc; induction simple as [|a simple IH]; simpl; intros acc H; [left; exact H|].
  destruct (IH _ H) as [Hx | [b [Hb ->]]]; [|right; exists b; tauto].
  destruct (existsb _ acc); [left; exact Hx|].
  apply in_app_or in Hx. destruct Hx as [Hx | [<- | []]]; [left; exact Hx|].
  right. exists a. tauto.
Qed.

(** *** [text_parser.py] *)

Lemma in_extract_action_items (text : string) a :
  In a (extract_action_items text) ->
  10 < String.length (sa_text a) /\ sa_priority a = "medium".
Proof.
  unfold extract_action_items. intros Ha.
  apply in_firstn_in, in_dedup_by, in_scan_patterns in Ha. destruct Ha as [mt Hmt].
  destruct (Nat.ltb_spec 10 (String.length (strip (Re.group_s mt 1)))) as [Lt|Ge];
    [|discriminate].
  injection Hmt as <-. simpl. split; [exact Lt | reflexivity].
Qed.

(** The generic action items have distinct texts, each longer than 10
    characters, and all have priority ["medium"]. *)
Theorem extract_action_items_shape (text : string) :
  NoDup (map sa_text (extract_action_items text))
  /\ (forall a, In a (extract_action_items text) ->
        10 < String.length (sa_text a) /\ sa_priority a = "medium").
Proof.
  unfold extract_action_items. split.
  - rewrite <- firstn_map. apply NoDup_firstn_of. apply dedup_by_NoDup.
  - apply in_extract_action_items.
Qed.

(** Every meeting action item has status ["open"] and a priority among
    ["high"], ["medium"] and ["low"]. *)
Theorem meeting_action_items_status_priority (text : string) :
  forall it, In it (extract_meeting_action_items text) ->
    ai_status it = Some "open"
    /\ (ai_priority it = Some "high" \/ ai_priority it = Some "medium"
        \/ ai_priority it = Some "low").
Proof.
  intros it Hit. unfold extract_meeting_action_items in Hit.
  apply in_firstn_in, in_dedup_by, in_fold_simple in Hit.
  destruct Hit as [Hit | [a [Ha ->]]].
  - apply in_scan_patterns in Hit. destruct Hit as [mt Hmt]. unfold meeting_item_of in Hmt.
    destruct (2 <=? _); [|discriminate].
    match type of Hmt with
    | (if ?c then _ else _) = _ => destruct c; [|discriminate]
    end.
    injection Hmt as <-. simpl. split; [reflexivity|].
    match goal with
    | |- context [detect_priority ?x] => destruct (detect_priority_cases x) as [E|[E|E]]
    end; rewrite E; tauto.
  - simpl. split; [reflexivity|].
    destruct (in_extract_action_items text a Ha) as [_ ->]. tauto.
Qed.

Lemma meeting_action_items_status_priority_witness :
  let it := mkActionItem "finish the report" (Some "John") (Some "Friday") (Some "low") (Some "open") in
  In it (extract_meeting_action_items sample_text) /\ ai_status it = Some "open".
Proof.
  cbv zeta.
  assert (H : In (mkActionItem "finish the report" (Some "John") (Some "Friday") (Some "low")
                    (Some "open")) (extract_meeting_action_items sample_text))
    by (vm_compute; left; reflexivity).
  split; [exact H | exact (proj1 (meeting_action_items_status_priority sample_text _ H))].
Defined.

(** [detect_priority] answers ["high"] exactly when one of its five high
    words occurs in the lower-cased text, and ["medium"] exactly when none
    of them does but ["soon"] or ["priority"] does: the ["important"] of the
    second list never gives ["medium"]. *)
Theorem detect_priority_levels (t : string) :
  let l := lower t in
  let high := existsb (fun w => contains w l)
                ["urgent"; "asap"; "immediately"; "critical"; "important"] in
  (detect_priority t = "high" <-> high = true)
  /\ (detect_priority t = "medium"
      <-> high = false /\ (contains "soon" l = true \/ contains "priority" l = true))
  /\ (detect_priority t = "low"
      <-> high = false /\ contains "soon" l = false /\ contains "priority" l = false).
Proof.
  intros l high. unfold detect_priority, high, l. simpl.
  destruct (contains "urgent" (lower t)), (contains "asap" (lower t)),
    (contains "immediately" (lower t)), (contains "critical" (lower t)),
    (contains "important" (lower t)), (contains "soon" (lower t)),
    (contains "priority" (lower t)); simpl;
    intuition discriminate.
Qed.

Lemma insert_desc_perm x l : Permutation (insert_desc x l) (x :: l).
Proof.
  induction l as [|y l IH]; simpl; [reflexivity|].
  destruct (snd y <? snd x); [reflexivity|].
  transitivity (y :: x :: l); [constructor; exact IH | constructor].
Qed.

Lemma fold_insert_perm l acc :
  Permutation (fold_left (fun acc x => insert_desc x acc) l acc) (app l acc).
Proof.
  revert acc; induction l as [|x l IH]; simpl; intros acc; [reflexivity|].
  rewrite IH, insert_desc_perm. symmetry. apply Permutation_middle.
Qed.

Lemma sort_desc_perm l : Permutation (sort_desc l) l.
Proof. unfold sort_desc. rewrite fold_insert_perm, app_nil_r. reflexivity. Qed.

Lemma NoDup_map_filter {A B : Type} (f : A -> B) (p : A -> bool) l :
  NoDup (map f l) -> NoDup (map f (filter p l)).
Proof.
  induction l as [|a l IH]; simpl; intros H; [constructor|].
  apply NoDup_cons_iff in H. destruct H as [Ha H].
  destruct (p a); simpl; [|exact (IH H)].
  constructor; [|exact (IH H)].
  intros Hin. apply Ha. apply in_map_iff in Hin. destruct Hin as [y [Hy Hyin]].
  apply filter_In in Hyin. rewrite <- Hy. apply in_map. tauto.
Qed.

Lemma in_meaningful_words text w :
  In w (meaningful_words text) -> mem w stop_words = false /\ 3 < String.length w.
Proof.
  unfold meaningful_words. rewrite filter_In. intros [_ H].
  apply andb_prop in H. destruct H as [H1 H2].
  split; [destruct (mem w stop_words); [discriminate | reflexivity] | apply Nat.ltb_lt; exact H2].
Qed.

(** At most 10 key phrases, no phrase twice, and each one is a word of more
    than 3 characters, not a stop word, that occurs at least twice among the
    words of the lower-cased text. *)
Theorem key_phrases_shape (text : string) :
  List.length (extract_key_phrases text) <= 10
  /\ NoDup (extract_key_phrases text)
  /\ (forall p, In p (extract_key_phrases text) ->
        3 < String.length p /\ mem p stop_words = false
        /\ 2 <= count (meaningful_words text) p).
Proof.
  unfold extract_key_phrases. rewrite word_freq_spec_counts.
  set (ws := meaningful_words text).
  assert (Hkeys : map fst (spec_counts ws) = distinct ws).
  { unfold spec_counts. rewrite map_map. apply map_id. }
  assert (Hnd : NoDup (map fst (sort_desc (spec_counts ws)))).
  { apply (Permutation_NoDup (Permutation_map fst (Permutation_sym (sort_desc_perm _)))).
    rewrite Hkeys. unfold distinct.
    pose proof (dedup_by_NoDup (fun w : string => w) ws []) as H. rewrite map_id in H. exact H. }
  split; [|split].
  - rewrite length_map. etransitivity; [apply filter_length_le|]. apply firstn_le_length.
  - apply NoDup_map_filter. rewrite <- firstn_map. apply NoDup_firstn_of. exact Hnd.
  - intros p Hp. apply in_map_iff in Hp. destruct Hp as [z [<- Hz]].
    apply filter_In in Hz. destruct Hz as [Hz Hc]. apply Nat.ltb_lt in Hc.
    apply in_firstn_in in Hz.
    apply (Permutation_in _ (sort_desc_perm _)) in Hz.
    unfold spec_counts in Hz. apply in_map_iff in Hz. destruct Hz as [w [<- Hw]].
    simpl in *. unfold distinct in Hw. apply dedup_id_In in Hw. destruct Hw as [Hw _].
    destruct (in_meaningful_words text w Hw) as [Hs Hl]. repeat split; [exact Hl | exact Hs | lia].
Qed.

(** [generate_summary] never returns more than 200 characters. *)
Theorem generate_summary_length (text : string) :
  String.length (generate_summary text) <= 200.
Proof.
  unfold generate_summary. destruct (sentences_of text) as [|s0 ss]; [simpl; lia|].
  match goal with
  | |- context [if 200 <? String.length ?s then _ else _] => set (summary := s)
  end.
  destruct (Nat.ltb_spec 200 (String.length summary)) as [Lt|Ge]; [|exact Ge].
  rewrite str_length_app. unfold take. pose proof (substring_0_le 197 summary). simpl. lia.
Qed.

(** Both summaries are empty exactly when the text has no non-blank
    sentence. *)
Theorem summaries_empty_iff (text : string) :
  (generate_summary text = "" <-> sentences_of text = [])
  /\ (generate_meeting_summary text = "" <-> sentences_of text = []).
Proof.
  pose proof (in_sentences_of text) as Hne.
  unfold generate_summary, generate_meeting_summary.
  destruct (sentences_of text) as [|s0 ss] eqn:E; [tauto|].
  assert (Hs0 : s0 <> "") by (apply Hne; left; reflexivity).
  split; (split; [intros H; exfalso; revert H | discriminate]).
  - match goal with
    | |- context [if 200 <? String.length ?s then _ else _] => set (summary := s)
    end.
    destruct (200 <? String.length summary); [apply app_nonempty_r; discriminate|].
    subst summary. destruct (List.length (s0 :: ss) =? 1); [exact Hs0|].
    destruct (List.length (s0 :: ss) <=? 3); [apply join_nonempty; exact Hs0|].
    apply app_nonempty_l. exact Hs0.
  - destruct (filter _ (s0 :: ss)) as [|y ys] eqn:F.
    + destruct (List.length (s0 :: ss) <=? 3); [apply join_nonempty; exact Hs0|].
      apply app_nonempty_l. exact Hs0.
    + cbn [firstn]. apply join_nonempty. apply Hne.
      assert (Hy : In y (filter (fun s => existsb (fun kw => contains kw (lower s))
                     ["summary"; "conclusion"; "main point"; "key takeaway"; "overall"])
                     (s0 :: ss))) by (rewrite F; left; reflexivity).
      apply filter_In in Hy. tauto.
Qed.

Lemma filter_person_map (ty : string) (xs : list string) :
  filter (fun e => String.eqb (e_type e) "PERSON_OR_PLACE") (map (mkEntity ty) xs)
  = if String.eqb ty "PERSON_OR_PLACE" then map (mkEntity ty) xs else [].
Proof.
  induction xs as [|x xs IH]; simpl; [destruct (String.eqb ty _); reflexivity|].
  rewrite IH. destruct (String.eqb ty "PERSON_OR_PLACE"); reflexivity.
Qed.

(** The ["PERSON_OR_PLACE"] entities: at most 10, each longer than 2
    characters and none of ["The"], ["This"], ["That"], ["There"],
    ["They"]. *)
Theorem person_or_place_entities (text : string) :
  let pp := filter (fun e => String.eqb (e_type e) "PERSON_OR_PLACE") (extract_entities text) in
  List.length pp <= 10
  /\ (forall e, In e pp ->
        2 < String.length (e_value e) /\ ~ In (e_value e) ["The"; "This"; "That"; "There"; "They"]).
Proof.
  intros pp. unfold pp, extract_entities. rewrite !filter_app, !filter_person_map.
  change (String.eqb "EMAIL" "PERSON_OR_PLACE") with false.
  change (String.eqb "PHONE" "PERSON_OR_PLACE") with false.
  change (String.eqb "URL" "PERSON_OR_PLACE") with false.
  change (String.eqb "CURRENCY" "PERSON_OR_PLACE") with false.
  change (String.eqb "PERSON_OR_PLACE" "PERSON_OR_PLACE") with true.
  cbn iota. rewrite !app_nil_l.
  split.
  - rewrite length_map. etransitivity; [apply filter_length_le|]. apply firstn_le_length.
  - intros e He. apply in_map_iff in He. destruct He as [cap [<- Hcap]].
    apply filter_In in Hcap. destruct Hcap as [_ Hq]. apply andb_prop in Hq.
    destruct Hq as [H1 H2]. simpl. split; [apply Nat.ltb_lt; exact H1|].
    intros Hin.
    rewrite (proj2 (mem_In cap ["The"; "This"; "That"; "There"; "They"]) Hin) in H2.
    discriminate.
Qed.

(** For any iteration order of Python sets, every key decision and every
    next step is longer than 10 characters (after stripping). *)
Theorem decisions_next_steps_long (set_list : list string -> list string)
  (Hset : is_set_list set_list) (text : string) :
  (forall d, In d (extract_decisions set_list text) -> 10 < String.length d)
  /\ (forall s, In s (extract_next_steps set_list text) -> 10 < String.length s).
Proof.
  unfold extract_decisions, extract_next_steps. split; intros x Hx;
    apply (in_set_list set_list Hset) in Hx; apply in_scan_patterns in Hx;
    destruct Hx as [mt Hmt];
    match type of Hmt with
    | (if ?c then _ else _) = _ => destruct c eqn:Hc; [|discriminate]
    end;
    injection Hmt as <-; apply Nat.ltb_lt; exact Hc.
Qed.

Lemma decisions_next_steps_long_witness :
  is_set_list some_set_order
  /\ (forall d, In d (extract_decisions some_set_order sample_text) -> 10 < String.length d).
Proof.
  split; [exact some_set_order_ok|].
  exact (proj1 (decisions_next_steps_long some_set_order some_set_order_ok sample_text)).
Defined.

(** For any iteration order of Python sets, no participant is one of the
    filtered words (["The"], ["This"], ["That"], ["There"], ["They"], ["We"],
    ["I"]), and each has at most 3 whitespace-separated words. *)
Theorem participants_filtered (set_list : list string -> list string)
  (Hset : is_set_list set_list) (text : string) :
  forall p, In p (extract_participants set_list text) ->
    ~ In p ["The"; "This"; "That"; "There"; "They"; "We"; "I"]
    /\ List.length (split p) <= 3.
Proof.
  unfold extract_participants. intros x Hx.
  apply (in_set_list set_list Hset) in Hx. apply in_scan_patterns in Hx.
  destruct Hx as [mt Hmt].
  match type of Hmt with
  | (if ?c then _ else _) = _ => destruct c eqn:Hc; [|discriminate]
  end.
  injection Hmt as <-. apply andb_prop in Hc. destruct Hc as [H1 H2].
  split; [|apply Nat.leb_le; exact H2].
  intros Hin.
  rewrite (proj2 (mem_In _ ["The"; "This"; "That"; "There"; "They"; "We"; "I"]) Hin) in H1.
  discriminate.
Qed.

Lemma participants_filtered_witness :
  is_set_list some_set_order
  /\ (forall p, In p (extract_participants some_set_order sample_text) ->
        List.length (split p) <= 3).
Proof.
  split; [exact some_set_order_ok|].
  intros p Hp. exact (proj2 (participants_filtered some_set_order some_set_order_ok
                               sample_text p Hp)).
Defined.



(** *** [map_to_requirements_format] *)

Lemma fold_digits_uint (d : Decimal.uint) (acc : nat) :
  fold_left (fun acc c => acc * 10 + (code c - 48)) (chars (NilEmpty.string_of_uint d)) acc
  = Nat.of_uint_acc d acc.
Proof.
  revert acc; induction d; intros acc; simpl; [reflexivity| ..];
    rewrite IHd; f_equal; rewrite Nat.tail_mul_spec; simpl; lia.
Qed.

Lemma fold_digits_zeros (k : nat) :
  fold_left (fun acc c => acc * 10 + (code c - 48)) (repeat "0"%char k) 0 = 0.
Proof. induction k as [|k IH]; simpl; [reflexivity | exact IH]. Qed.

Lemma pad03_length_ge (n : nat) : 3 <= String.length (pad03 n).
Proof.
  unfold pad03. rewrite str_length_app, length_of_chars, repeat_length. lia.
Qed.

Lemma pad03_small_check :
  forallb (fun n => String.length (pad03 n) =? 3) (seq 0 1000) = true.
Proof. vm_compute. reflexivity. Qed.

Lemma int_of_pad03 (n : nat) : int_of (pad03 n) = n.
Proof.
  unfold int_of, pad03. rewrite chars_app, fold_left_app, chars_of_chars, fold_digits_zeros.
  unfold str_int. rewrite fold_digits_uint. apply DecimalNat.Unsigned.of_to.
Qed.

(** [int(f"{n:03d}")] gives [n] back; the padded string has at least 3
    characters, and exactly 3 for [n < 1000]. *)
Theorem pad03_round_trip (n : nat) :
  int_of (pad03 n) = n
  /\ 3 <= String.length (pad03 n)
  /\ (n < 1000 -> String.length (pad03 n) = 3).
Proof.
  split; [apply int_of_pad03|]. split; [apply pad03_length_ge|].
  intros Hn. pose proof pad03_small_check as H. rewrite forallb_forall in H.
  apply Nat.eqb_eq. apply H. apply in_seq. lia.
Qed.

Lemma pad03_round_trip_witness :
  999 < 1000 /\ String.length (pad03 999) = 3.
Proof. split; [lia | apply (proj2 (proj2 (pad03_round_trip 999))); lia]. Defined.

Lemma req_id_inj (i j : nat) : req_id i = req_id j -> i = j.
Proof.
  unfold req_id. intros H. simpl in H. injection H as H.
  rewrite <- (int_of_pad03 i), <- (int_of_pad03 j), H. reflexivity.
Qed.

Lemma NoDup_map_req_id (l : list nat) : NoDup l -> NoDup (map req_id l).
Proof.
  induction l as [|a l IH]; simpl; intros H; [constructor|].
  apply NoDup_cons_iff in H. destruct H as [Ha H]. constructor; [|exact (IH H)].
  intros Hin. apply in_map_iff in Hin. destruct Hin as [b [Hb Hbin]].
  apply req_id_inj in Hb. subst b. contradiction.
Qed.

Lemma map_actions_ids i acts ds :
  map r_id (map_actions i acts ds) = map req_id (seq i (List.length acts)).
Proof. revert i; induction acts as [|a acts IH]; simpl; intros i; [reflexivity | rewrite IH; reflexivity]. Qed.

Lemma map_decisions_ids i ds :
  exists L, map r_id (map_decisions i ds) = map req_id L /\ NoDup L
            /\ (forall j, In j L -> i <= j).
Proof.
  revert i; induction ds as [|d ds IH]; simpl; intros i.
  - exists []. split; [reflexivity|]. split; [constructor | intros j []].
  - destruct (IH (S i)) as [L [HL [Hnd Hge]]].
    destruct (20 <? String.length d).
    + exists (i :: L). simpl. rewrite HL. split; [reflexivity|]. split.
      * constructor; [intros Hin; specialize (Hge i Hin); lia | exact Hnd].
      * intros j [<- | Hj]; [lia | specialize (Hge j Hj); lia].
    + exists L. split; [exact HL|]. split; [exact Hnd|]. intros j Hj. specialize (Hge j Hj). lia.
Qed.

Lemma map_decisions_length i ds :
  List.length (map_decisions i ds) = List.length (filter (fun d => 20 <? String.length d) ds).
Proof.
  revert i; induction ds as [|d ds IH]; simpl; intros i; [reflexivity|].
  destruct (20 <? String.length d); simpl; rewrite IH; reflexivity.
Qed.

(** One requirement per action item and one per decision longer than 20
    characters. *)
Theorem requirements_count (md : MeetingData) :
  List.length (map_to_requirements_format md)
  = List.length (action_items md)
    + List.length (filter (fun d => 20 <? String.length d) (key_decisions md)).
Proof.
  rewrite map_to_requirements_split, length_app, map_actions_length, map_decisions_length.
  reflexivity.
Qed.

(** The requirement IDs are pairwise distinct, and the action items get
    ["REQ-001"], ["REQ-002"], ... in order. *)
Theorem requirement_ids_distinct (md : MeetingData) :
  let n := List.length (action_items md) in
  NoDup (map r_id (map_to_requirements_format md))
  /\ map r_id (firstn n (map_to_requirements_format md)) = map req_id (seq 1 n).
Proof.
  cbv zeta. rewrite map_to_requirements_split.
  destruct (map_decisions_ids (List.length (action_items md) + 1) (key_decisions md))
    as [L [HL [Hnd Hge]]].
  split.
  - rewrite map_app, map_actions_ids, HL, <- map_app. apply NoDup_map_req_id.
    apply NoDup_app; [apply seq_NoDup | exact Hnd|].
    intros j Hj HjL. apply in_seq in Hj. specialize (Hge j HjL). lia.
  - rewrite firstn_app, map_actions_length, Nat.sub_diag, firstn_O, app_nil_r.
    rewrite <- (map_actions_length 1 (action_items md) (key_decisions md)) at 1.
    rewrite firstn_all, map_actions_ids. reflexivity.
Qed.

Lemma append_empty (s : string) : s ++ "" = s.
Proof. induction s as [|c s IH]; simpl; [reflexivity | rewrite IH; reflexivity]. Qed.

Lemma in_map_decisions_mem r i ds :
  In r (map_decisions i ds) -> exists j d, In d ds /\ r = decision_requirement j d.
Proof.
  revert i; induction ds as [|d ds IH]; simpl; intros i H; [contradiction|].
  destruct (20 <? String.length d).
  - destruct H as [<- | H]; [exists i, d; tauto|].
    destruct (IH _ H) as [j [d' [Hd ->]]]. exists j, d'. tauto.
  - destruct (IH _ H) as [j [d' [Hd ->]]]. exists j, d'. tauto.
Qed.

(** Every requirement is a ["draft"] with a title of at most 103
    characters; an action item's requirement whose text has at most 100
    characters has that text as its title. *)
Theorem requirement_titles (md : MeetingData) :
  forall r, In r (map_to_requirements_format md) ->
    String.length (r_title r) <= 103 /\ r_status r = "draft"
    /\ (r_source r = "meeting_action_item" -> String.length (r_description r) <= 100 ->
        r_title r = r_description r).
Proof.
  intros r Hr. unfold map_to_requirements_format in Hr. apply in_app_or in Hr.
  destruct Hr as [Hr | Hr].
  - destruct (in_map_actions _ _ _ _ Hr) as [j [a ->]]. simpl.
    split; [|split; [reflexivity|]].
    + rewrite str_length_app. unfold take. pose proof (substring_0_le 100 (ai_text a)).
      destruct (100 <? String.length (ai_text a)); simpl; lia.
    + intros _ Hle. replace (100 <? String.length (ai_text a)) with false
        by (symmetry; apply Nat.ltb_ge; exact Hle).
      rewrite append_empty. unfold take. apply substring_0_all. exact Hle.
  - destruct (in_map_decisions _ _ _ Hr) as [j [d ->]]. simpl.
    split; [|split; [reflexivity | discriminate]].
    unfold take. pose proof (substring_0_le 80 d). lia.
Qed.

Lemma requirement_titles_witness :
  let r := mkRequirement "REQ-001" "Prepare the quarterly report" "Prepare the quarterly report"
    "functional" "medium" "draft" None None
    ["Action item is completed as specified"; "Completion is verified and documented"]
    "meeting_action_item" ["Adopt the new deployment pipeline"] in
  In r (map_to_requirements_format md_short_then_long) /\ r_title r = r_description r.
Proof.
  cbv zeta.
  assert (H : In (mkRequirement "REQ-001" "Prepare the quarterly report" "Prepare the quarterly report"
    "functional" "medium" "draft" None None
    ["Action item is completed as specified"; "Completion is verified and documented"]
    "meeting_action_item" ["Adopt the new deployment pipeline"])
                (map_to_requirements_format md_short_then_long))
    by (vm_compute; left; reflexivity).
  split; [exact H|].
  apply (proj2 (proj2 (requirement_titles md_short_then_long _ H))); [reflexivity|].
  apply Nat.leb_le. reflexivity.
Defined.

(** Every related decision of every requirement is one of the meeting's
    [key_decisions]. *)
Theorem related_decisions_are_key_decisions (md : MeetingData) :
  forall r, In r (map_to_requirements_format md) ->
    forall d, In d (r_related_decisions r) -> In d (key_decisions md).
Proof.
  intros r Hr d Hd. unfold map_to_requirements_format in Hr. apply in_app_or in Hr.
  destruct Hr as [Hr | Hr].
  - destruct (in_map_actions _ _ _ _ Hr) as [j [a ->]]. simpl in Hd.
    apply filter_In in Hd. tauto.
  - destruct (in_map_decisions_mem _ _ _ Hr) as [j [d' [Hd' ->]]].
    simpl in Hd. destruct Hd as [<- | []]. exact Hd'.
Qed.

Lemma related_decisions_are_key_decisions_witness :
  let r := mkRequirement "REQ-001" "Prepare the quarterly report" "Prepare the quarterly report"
    "functional" "medium" "draft" None None
    ["Action item is completed as specified"; "Completion is verified and documented"]
    "meeting_action_item" ["Adopt the new deployment pipeline"] in
  In r (map_to_requirements_format md_short_then_long)
  /\ In "Adopt the new deployment pipeline" (key_decisions md_short_then_long).
Proof.
  cbv zeta.
  assert (H : In (mkRequirement "REQ-001" "Prepare the quarterly report" "Prepare the quarterly report"
    "functional" "medium" "draft" None None
    ["Action item is completed as specified"; "Completion is verified and documented"]
    "meeting_action_item" ["Adopt the new deployment pipeline"])
                (map_to_requirements_format md_short_then_long))
    by (vm_compute; left; reflexivity).
  split; [exact H|].
  apply (related_decisions_are_key_decisions md_short_then_long _ H). left. reflexivity.
Defined.

(** *** [parse_meeting_text] and [extract_meeting_data_with_bedrock] *)

(** [extract_meeting_data_with_bedrock] either reports success (used, no
    error) with no entities, no dates and the duration estimate of
    [text_parser], or reports failure ([{}], not used, an error). *)
Theorem bedrock_result_shape (env : BedrockEnv) (text : string) :
  match extract_meeting_data_with_bedrock env text with
  | (DictMeeting d, used, err) =>
      used = true /\ err = None /\ entities d = [] /\ dates d = []
      /\ duration_estimate d = estimate_meeting_duration text
  | (DictEmpty, used, err) => used = false /\ exists e, err = Some e
  end.
Proof.
  unfold extract_meeting_data_with_bedrock.
  destruct (extract_with_bedrock env text) as [j | e]; simpl.
  - repeat split.
  - split; [reflexivity | exists e; reflexivity].
Qed.

(** [parse_meeting_text] returns the rule-based meeting data exactly when
    Bedrock is not requested or its import fails; otherwise it returns a
    triple whose [bedrock_used] is true exactly when its error is [None]. *)
Theorem parse_meeting_text_dispatch (set_list : list string -> list string)
  (env : BedrockEnv) (text : string) (use_bedrock : bool) :
  (parse_meeting_text set_list env text use_bedrock = ResDict (regex_meeting_data set_list text)
   <-> use_bedrock && importable env = false)
  /\ (use_bedrock && importable env = true ->
      exists d used err, parse_meeting_text set_list env text use_bedrock = ResTriple d used err
                         /\ (used = true <-> err = None)).
Proof.
  unfold parse_meeting_text.
  destruct (use_bedrock && importable env) eqn:E.
  - split; [|intros _].
    + split; [|discriminate]. unfold extract_meeting_data_with_bedrock.
      destruct (extract_with_bedrock env text); discriminate.
    + unfold extract_meeting_data_with_bedrock.
      destruct (extract_with_bedrock env text) as [j | e].
      * eexists _, _, _. split; [reflexivity | tauto].
      * eexists _, _, _. split; [reflexivity|]. split; discriminate.
  - split; [tauto | discriminate].
Qed.

Lemma parse_meeting_text_dispatch_witness :
  true && importable bedrock_down = true
  /\ exists d used err,
       parse_meeting_text some_set_order bedrock_down sample_text true = ResTriple d used err
       /\ (used = true <-> err = None).
Proof.
  split; [reflexivity|].
  exact (proj2 (parse_meeting_text_dispatch some_set_order bedrock_down sample_text true)
               eq_refl).
Defined.

(** *** [app.py]: [process_meeting] *)

Lemma process_meeting_rule_path (set_list : list string -> list string) (env : App.AppEnv)
  (rq : App.Request) :
  truthy (get_or (App.rq_text rq) "") = true ->
  App.decide_use_bedrock (App.rq_use_bedrock rq) env && importable (App.bedrock env) = false ->
  App.process_meeting set_list env (Some rq)
  = App.mkReply 500 (App.BodyError "too many values to unpack (expected 3)") None.
Proof.
  intros Ht Hd. unfold App.process_meeting. cbv zeta. rewrite Ht. simpl negb. cbv iota.
  unfold parse_meeting_text. rewrite Hd. reflexivity.
Qed.

(** Whenever a request with a non-empty text takes the rule-based path
    (Bedrock not chosen, or its import failing), [process_meeting] answers
    500: it unpacks the meeting [dict] as a triple.  Nothing is stored. *)
Theorem process_meeting_rule_path_fails (set_list : list string -> list string)
  (env : App.AppEnv) (rq : App.Request) :
  truthy (get_or (App.rq_text rq) "") = true ->
  App.decide_use_bedrock (App.rq_use_bedrock rq) env && importable (App.bedrock env) = false ->
  App.status (App.process_meeting set_list env (Some rq)) = 500
  /\ App.stored (App.process_meeting set_list env (Some rq)) = None.
Proof. intros Ht Hd. rewrite (process_meeting_rule_path set_list env rq Ht Hd). tauto. Qed.

Lemma process_meeting_rule_path_fails_witness :
  truthy (get_or (App.rq_text AppInputs.sample_request) "") = true
  /\ App.status (App.process_meeting some_set_order AppInputs.no_config_env
                   (Some AppInputs.sample_request)) = 500.
Proof.
  split; [reflexivity|].
  apply (process_meeting_rule_path_fails some_set_order AppInputs.no_config_env
           AppInputs.sample_request); reflexivity.
Defined.

(** With no [use_bedrock] in the request, no [USE_BEDROCK] and no
    [AWS_BEDROCK_API_KEY] in the environment, every request with a
    non-empty text is answered 500. *)
Theorem process_meeting_default_config_fails (set_list : list string -> list string)
  (env : App.AppEnv) (rq : App.Request) :
  App.rq_use_bedrock rq = None -> App.env_USE_BEDROCK env = None ->
  App.env_AWS_BEDROCK_API_KEY env = None -> truthy (get_or (App.rq_text rq) "") = true ->
  App.status (App.process_meeting set_list env (Some rq)) = 500.
Proof.
  intros Hr Hu Hk Ht. rewrite (process_meeting_rule_path set_list env rq Ht); [reflexivity|].
  unfold App.decide_use_bedrock, App.getenv. rewrite Hr, Hu, Hk. reflexivity.
Qed.

Lemma process_meeting_default_config_fails_witness :
  App.rq_use_bedrock AppInputs.sample_request = None
  /\ App.status (App.process_meeting some_set_order AppInputs.no_config_env
                   (Some AppInputs.sample_request)) = 500.
Proof.
  split; [reflexivity|].
  apply (process_meeting_default_config_fails some_set_order AppInputs.no_config_env
           AppInputs.sample_request); reflexivity.
Defined.

(** A request whose text is missing or empty is answered 400 ["Text is
    required"] in every environment, and nothing is stored. *)
Theorem process_meeting_empty_text (set_list : list string -> list string)
  (env : App.AppEnv) (rq : App.Request) :
  get_or (App.rq_text rq) "" = "" ->
  App.process_meeting set_list env (Some rq)
  = App.mkReply 400 (App.BodyError "Text is required") None.
Proof. intros Ht. unfold App.process_meeting. cbv zeta. rewrite Ht. reflexivity. Qed.

Lemma process_meeting_empty_text_witness :
  get_or (App.rq_text (App.mkRequest None None None None None)) "" = ""
  /\ App.status (App.process_meeting some_set_order AppInputs.outage_env
                   (Some (App.mkRequest None None None None None))) = 400.
Proof.
  split; [reflexivity|].
  rewrite (process_meeting_empty_text some_set_order AppInputs.outage_env
             (App.mkRequest None None None None None)); reflexivity.
Defined.

(** When Bedrock is chosen, imports, and raises [e], [process_meeting]
    answers 200 with an empty meeting summary ([{}]), no requirements,
    [extraction_method] ["regex"], [bedrock_used] false, and [e] as
    [bedrock_error] when [e] is not empty. *)
Theorem process_meeting_bedrock_failure (set_list : list string -> list string)
  (env : App.AppEnv) (rq : App.Request) (e : string) :
  truthy (get_or (App.rq_text rq) "") = true ->
  App.decide_use_bedrock (App.rq_use_bedrock rq) env = true ->
  importable (App.bedrock env) = true ->
  extract_with_bedrock (App.bedrock env) (get_or (App.rq_text rq) "") = Raised e ->
  App.status (App.process_meeting set_list env (Some rq)) = 200
  /\ exists meeting_id,
       App.body (App.process_meeting set_list env (Some rq))
       = App.BodyMeeting (get_or (App.rq_text rq) "") DictEmpty [] "regex" false meeting_id
           (if truthy e then Some e else None).
Proof.
  intros Ht Hd Hi He. unfold App.process_meeting. cbv zeta. rewrite Ht. simpl negb. cbv iota.
  unfold parse_meeting_text. rewrite Hd, Hi. simpl andb. cbv iota.
  unfold extract_meeting_data_with_bedrock. rewrite He. simpl.
  destruct (String.eqb (lower (App.getenv (App.env_STORE_IN_S3 env) "true")) "true"
            && App.truthy_opt (App.py_or (App.rq_audio_s3_key rq) (App.rq_s3_key rq))).
  - destruct (App.store_meeting_data env _ _ _ _ _ _); simpl; (split; [reflexivity | eexists; reflexivity]).
  - simpl. split; [reflexivity | eexists; reflexivity].
Qed.

Lemma process_meeting_bedrock_failure_witness :
  App.decide_use_bedrock (App.rq_use_bedrock AppInputs.sample_request) AppInputs.outage_env = true
  /\ App.status (App.process_meeting some_set_order AppInputs.outage_env
                   (Some AppInputs.sample_request)) = 200.
Proof.
  split; [reflexivity|].
  apply (process_meeting_bedrock_failure some_set_order AppInputs.outage_env
           AppInputs.sample_request "Bedrock extraction failed: no credentials");
    reflexivity.
Defined.



(** *** [s3_storage.py] *)

Lemma str_app_assoc (a b c : string) : (a ++ b) ++ c = a ++ (b ++ c).
Proof. induction a as [|x a IH]; simpl; [reflexivity | rewrite IH; reflexivity]. Qed.

Lemma str_app_inv_l (p a b : string) : p ++ a = p ++ b -> a = b.
Proof. induction p as [|x p IH]; simpl; [tauto | intros H; injection H; exact IH]. Qed.

Lemma prefix_of_app (p l : list ascii) : prefix_of p (p ++ l) = true.
Proof. induction p as [|c p IH]; simpl; [reflexivity | rewrite Ascii.eqb_refl, IH; reflexivity]. Qed.

Lemma prefix_of_app_cancel (p a b : list ascii) : prefix_of (p ++ a) (p ++ b) = prefix_of a b.
Proof. induction p as [|c p IH]; simpl; [reflexivity | rewrite Ascii.eqb_refl, IH; reflexivity]. Qed.

Lemma skipn_length_app {A : Type} (l1 l2 : list A) : skipn (List.length l1) (l1 ++ l2) = l2.
Proof. induction l1 as [|x l1 IH]; simpl; [reflexivity | exact IH]. Qed.

Lemma contains_slash (s : string) : contains "/" s = false -> ~ In "/"%char (chars s).
Proof.
  unfold contains. generalize (chars s). intros l. induction l as [|c l IH]; simpl; [tauto|].
  intros H [Hc | Hin].
  - subst c. simpl in H. discriminate.
  - apply orb_false_iff in H. destruct H as [_ H]. exact (IH H Hin).
Qed.

Lemma get_object_cons (k0 v0 : string) (b : S3Storage.Bucket) (k : string) :
  S3Storage.get_object ((k0, v0) :: b) k
  = if String.eqb k0 k then Some v0 else S3Storage.get_object b k.
Proof. unfold S3Storage.get_object. simpl. destruct (String.eqb k0 k); reflexivity. Qed.

Lemma get_object_filter_keep (g : string * string -> bool) (b : S3Storage.Bucket) (k : string) :
  (forall v, g (k, v) = true) -> S3Storage.get_object (filter g b) k = S3Storage.get_object b k.
Proof.
  intros Hg. induction b as [|[k0 v0] b IH]; [reflexivity|]. simpl filter.
  rewrite get_object_cons. destruct (String.eqb_spec k0 k) as [->|Hne].
  - rewrite Hg. rewrite get_object_cons, String.eqb_refl. reflexivity.
  - destruct (g (k0, v0)); [rewrite get_object_cons; apply String.eqb_neq in Hne; rewrite Hne|];
      exact IH.
Qed.

Lemma get_object_filter_drop (g : string * string -> bool) (b : S3Storage.Bucket) (k : string) :
  (forall v, g (k, v) = false) -> S3Storage.get_object (filter g b) k = None.
Proof.
  intros Hg. induction b as [|[k0 v0] b IH]; [reflexivity|]. simpl filter.
  destruct (String.eqb_spec k0 k) as [->|Hne].
  - rewrite Hg. exact IH.
  - destruct (g (k0, v0)); [rewrite get_object_cons; apply String.eqb_neq in Hne; rewrite Hne|];
      exact IH.
Qed.

Lemma get_put_same (b : S3Storage.Bucket) (k v : string) :
  S3Storage.get_object (S3Storage.put_object b k v) k = Some v.
Proof. unfold S3Storage.put_object. rewrite get_object_cons, String.eqb_refl. reflexivity. Qed.

Lemma get_put_other (b : S3Storage.Bucket) (k k' v : string) :
  k <> k' -> S3Storage.get_object (S3Storage.put_object b k v) k' = S3Storage.get_object b k'.
Proof.
  intros Hne. unfold S3Storage.put_object. rewrite get_object_cons.
  apply String.eqb_neq in Hne. rewrite Hne. apply get_object_filter_keep.
  intros v0. simpl. apply String.eqb_neq in Hne. apply String.eqb_neq in Hne.
  rewrite String.eqb_sym, Hne. reflexivity.
Qed.

Lemma meeting_key_file_inj (id f g : string) :
  S3Storage.meeting_key id f = S3Storage.meeting_key id g -> f = g.
Proof.
  unfold S3Storage.meeting_key. intros H.
  apply str_app_inv_l in H. apply str_app_inv_l in H. apply str_app_inv_l in H. exact H.
Qed.

Lemma filter_empty_negb {A : Type} (p : A -> bool) (l : list A) :
  filter p l = [] -> filter (fun x => negb (p x)) l = l.
Proof.
  induction l as [|x l IH]; simpl; [reflexivity|].
  destruct (p x); simpl; [discriminate | intros H; rewrite IH; auto].
Qed.

Lemma delete_as_filter (b : S3Storage.Bucket) (id : string) :
  S3Storage.delete_meeting_data b id
  = filter (fun p => negb (S3Storage.starts_with ("transcriptions/" ++ id ++ "/") (fst p))) b.
Proof.
  unfold S3Storage.delete_meeting_data. cbv zeta.
  destruct (filter _ b) eqn:E; [symmetry; apply (filter_empty_negb _ _ E) | reflexivity].
Qed.

Lemma meeting_key_split (id f : string) :
  S3Storage.meeting_key id f = ("transcriptions/" ++ id ++ "/") ++ f.
Proof. unfold S3Storage.meeting_key. rewrite !str_app_assoc. reflexivity. Qed.

Lemma starts_with_meeting_key (id f : string) :
  S3Storage.starts_with ("transcriptions/" ++ id ++ "/") (S3Storage.meeting_key id f) = true.
Proof.
  rewrite meeting_key_split. unfold S3Storage.starts_with. rewrite (chars_app _ f).
  apply prefix_of_app.
Qed.

Lemma get_delete_own (b : S3Storage.Bucket) (id f : string) :
  S3Storage.get_object (S3Storage.delete_meeting_data b id) (S3Storage.meeting_key id f) = None.
Proof.
  rewrite delete_as_filter. apply get_object_filter_drop. intros v. cbn [fst].
  rewrite starts_with_meeting_key. reflexivity.
Qed.

Lemma prefix_of_slash_ids (a b f : list ascii) :
  ~ In "/"%char a -> ~ In "/"%char b -> a <> b ->
  prefix_of (a ++ ["/"%char]) (b ++ "/"%char :: f) = false.
Proof.
  revert b. induction a as [|c a IH]; intros b Ha Hb Hne; destruct b as [|d b];
    cbn [prefix_of app].
  - congruence.
  - destruct (Ascii.eqb_spec "/"%char d) as [<-|]; [simpl in Hb; tauto | reflexivity].
  - destruct (Ascii.eqb_spec c "/"%char) as [->|]; [simpl in Ha; tauto | reflexivity].
  - destruct (Ascii.eqb_spec c d) as [<-|]; [|reflexivity]. rewrite andb_true_l.
    apply IH; [intros H; apply Ha; right; exact H | intros H; apply Hb; right; exact H |].
    intros ->. apply Hne. reflexivity.
Qed.

Lemma starts_with_other_key (id id2 f : string) :
  contains "/" id = false -> contains "/" id2 = false -> id <> id2 ->
  S3Storage.starts_with ("transcriptions/" ++ id ++ "/") (S3Storage.meeting_key id2 f) = false.
Proof.
  intros H1 H2 Hne. unfold S3Storage.starts_with, S3Storage.meeting_key.
  rewrite !chars_app. rewrite prefix_of_app_cancel.
  apply prefix_of_slash_ids; [apply contains_slash; exact H1 | apply contains_slash; exact H2 |].
  intros Hc. apply Hne. rewrite <- (of_chars_chars id), <- (of_chars_chars id2), Hc. reflexivity.
Qed.

Lemma upto_slash_app (a f : list ascii) :
  ~ In "/"%char a -> S3Storage.upto_slash (a ++ "/"%char :: f) = Some (a ++ ["/"%char])%list.
Proof.
  induction a as [|c a IH]; intros Ha; simpl; [reflexivity|].
  destruct (Ascii.eqb_spec c "/"%char) as [->|]; [simpl in Ha; tauto|].
  rewrite IH; [reflexivity | intros H; apply Ha; right; exact H].
Qed.

Lemma replace_aux_absent (old new : list ascii) (fuel : nat) (l : list ascii) :
  contains_l old l = false -> S3Storage.replace_aux old new fuel l = l.
Proof.
  revert l. induction fuel as [|fuel IH]; intros l H; [reflexivity|].
  destruct l as [|c l]; [reflexivity|]. simpl in H. apply orb_false_iff in H.
  destruct H as [Hp Hc]. cbn [S3Storage.replace_aux]. rewrite Hp, IH by exact Hc. reflexivity.
Qed.

Lemma replace_aux_step (old new : list ascii) (fuel : nat) (l : list ascii) :
  l <> [] -> prefix_of old l = true ->
  S3Storage.replace_aux old new (S fuel) l
  = (new ++ S3Storage.replace_aux old new fuel (skipn (List.length old) l))%list.
Proof.
  intros Hl Hp. destruct l as [|c l]; [congruence|]. cbn [S3Storage.replace_aux].
  rewrite Hp. reflexivity.
Qed.

Lemma drop_slash_rev (a : list ascii) : ~ In "/"%char a -> S3Storage.drop_slash (rev a) = rev a.
Proof.
  intros Ha. destruct (rev a) as [|c r] eqn:E; [reflexivity|]. simpl.
  destruct (Ascii.eqb_spec c "/"%char) as [->|]; [|reflexivity].
  exfalso. apply Ha. apply in_rev. rewrite E. left. reflexivity.
Qed.

(** [store_meeting_data] then [retrieve_meeting_data] on the same id gives
    back the four bodies that were written, whatever the bucket held
    before. *)
Theorem store_retrieve_round_trip (b : S3Storage.Bucket) (id t s r m : string) :
  S3Storage.retrieve_meeting_data (S3Storage.store_meeting_data b id t s r m) id
  = Returned (t, s, r, m).
Proof.
  assert (Hne : forall f g, f <> g -> S3Storage.meeting_key id f <> S3Storage.meeting_key id g).
  { intros f g Hfg Hk. apply Hfg. exact (meeting_key_file_inj id f g Hk). }
  unfold S3Storage.retrieve_meeting_data, S3Storage.store_meeting_data.
  unfold S3Storage.transcription_key, S3Storage.summary_key, S3Storage.requirements_key,
    S3Storage.metadata_key. cbv zeta.
  repeat first [ rewrite get_put_same
               | rewrite get_put_other by (apply Hne; discriminate) ].
  reflexivity.
Qed.

(** After [delete_meeting_data] of a meeting id, none of its four objects
    is left, and [retrieve_meeting_data] of that id raises
    ["Meeting <id> not found"]. *)
Theorem delete_then_retrieve_not_found (b : S3Storage.Bucket) (id : string) :
  S3Storage.retrieve_meeting_data (S3Storage.delete_meeting_data b id) id
  = Raised ("Meeting " ++ id ++ " not found").
Proof.
  unfold S3Storage.retrieve_meeting_data, S3Storage.transcription_key.
  rewrite get_delete_own. reflexivity.
Qed.

(** [delete_meeting_data] of a meeting id leaves every object of another
    meeting unchanged, provided neither id contains a ['/']; without that
    condition, deleting meeting ["a"] also deletes the objects of meeting
    ["a/b"]. *)
Theorem delete_isolation (b : S3Storage.Bucket) (id id2 f : string) :
  contains "/" id = false -> contains "/" id2 = false -> id <> id2 ->
  S3Storage.get_object (S3Storage.delete_meeting_data b id) (S3Storage.meeting_key id2 f)
  = S3Storage.get_object b (S3Storage.meeting_key id2 f)
  /\ S3Storage.get_object
       (S3Storage.delete_meeting_data [(S3Storage.metadata_key "a/b", "{}")] "a")
       (S3Storage.metadata_key "a/b") = None.
Proof.
  intros H1 H2 Hne. split; [|reflexivity].
  rewrite delete_as_filter. apply get_object_filter_keep. intros v. cbn [fst].
  rewrite starts_with_other_key by assumption. reflexivity.
Qed.

Lemma delete_isolation_witness :
  contains "/" "meeting-1" = false
  /\ S3Storage.get_object
       (S3Storage.delete_meeting_data [(S3Storage.metadata_key "meeting-2", "{}")] "meeting-1")
       (S3Storage.meeting_key "meeting-2" "metadata.json") = Some "{}".
Proof.
  split; [reflexivity|].
  destruct (delete_isolation [(S3Storage.metadata_key "meeting-2", "{}")] "meeting-1" "meeting-2"
              "metadata.json") as [H _]; [reflexivity | reflexivity | discriminate |].
  rewrite H. reflexivity.
Defined.

(** [list_meetings] (S3 listing): a key [transcriptions/<id>/<file>] shows
    up as the common prefix [transcriptions/<id>/], and the id parsed back
    from it is [id], when [id] contains no ['/'] and
    ["transcriptions/"] does not occur in [id + "/"]; for the id
    ["mytranscriptions"] the parsed id is ["my"]. *)
Theorem list_meeting_id_round_trip (id f : string) :
  contains "/" id = false -> contains "transcriptions/" (id ++ "/") = false ->
  option_map S3Storage.meeting_id_of_prefix
    (S3Storage.common_prefix "transcriptions/" (S3Storage.meeting_key id f)) = Some id
  /\ option_map S3Storage.meeting_id_of_prefix
       (S3Storage.common_prefix "transcriptions/"
          (S3Storage.metadata_key "mytranscriptions")) = Some "my".
Proof.
  intros Hs Ht. split; [|reflexivity].
  assert (Ha : ~ In "/"%char (chars id)) by (apply contains_slash; exact Hs).
  unfold S3Storage.common_prefix.
  replace (S3Storage.starts_with "transcriptions/" (S3Storage.meeting_key id f)) with true
    by (unfold S3Storage.starts_with, S3Storage.meeting_key; rewrite chars_app;
        symmetry; apply prefix_of_app).
  unfold S3Storage.meeting_key. rewrite chars_app.
  rewrite <- (length_chars "transcriptions/"), skipn_length_app.
  rewrite chars_app. change (chars ("/" ++ f)) with ("/"%char :: chars f).
  rewrite (upto_slash_app _ _ Ha). cbn [option_map]. f_equal.
  unfold S3Storage.meeting_id_of_prefix, S3Storage.replace.
  rewrite str_length_app. change (String.length "transcriptions/" + ?x) with (S (14 + x)).
  rewrite chars_app, chars_of_chars. change (chars "") with (@nil ascii).
  rewrite replace_aux_step by (try discriminate; apply prefix_of_app).
  rewrite skipn_length_app, app_nil_l.
  rewrite replace_aux_absent.
  2: { unfold contains in Ht. rewrite chars_app in Ht. exact Ht. }
  unfold S3Storage.rstrip_slash. rewrite chars_of_chars, rev_app_distr. simpl.
  rewrite drop_slash_rev by exact Ha. rewrite rev_involutive, of_chars_chars. reflexivity.
Qed.

Lemma list_meeting_id_round_trip_witness :
  contains "/" "meeting-1" = false
  /\ option_map S3Storage.meeting_id_of_prefix
       (S3Storage.common_prefix "transcriptions/" (S3Storage.meeting_key "meeting-1" "summary.json"))
     = Some "meeting-1".
Proof.
  split; [reflexivity|].
  destruct (list_meeting_id_round_trip "meeting-1" "summary.json") as [H _];
    [reflexivity | reflexivity | exact H].
Defined.

(** *** [app.py]: [allowed_file] and [get_file] *)

Lemma after_last_l_split (c : ascii) (l1 l2 acc : list ascii) :
  App.after_last_l c (l1 ++ c :: l2) acc = App.after_last_l c l2 [].
Proof.
  revert acc. induction l1 as [|d l1 IH]; intros acc; simpl; [rewrite Ascii.eqb_refl; reflexivity|].
  destruct (Ascii.eqb d c); apply IH.
Qed.

Lemma after_last_l_absent (c : ascii) (l acc : list ascii) :
  ~ In c l -> App.after_last_l c l acc = (acc ++ l)%list.
Proof.
  revert acc. induction l as [|d l IH]; intros acc Hl; simpl; [rewrite app_nil_r; reflexivity|].
  destruct (Ascii.eqb_spec d c) as [->|]; [simpl in Hl; tauto|].
  rewrite IH by (intros H; apply Hl; right; exact H). rewrite <- app_assoc. reflexivity.
Qed.

Lemma after_last_l_free (c : ascii) (l acc : list ascii) :
  ~ In c acc -> ~ In c (App.after_last_l c l acc).
Proof.
  revert acc. induction l as [|d l IH]; intros acc Hacc; simpl; [exact Hacc|].
  destruct (Ascii.eqb_spec d c) as [->|Hne]; apply IH; [simpl; tauto|].
  intros H. apply in_app_or in H. destruct H as [H|[H|[]]]; [exact (Hacc H) | congruence].
Qed.

Lemma contains_l_app_mid (p l1 l2 : list ascii) : contains_l p (l1 ++ p ++ l2) = true.
Proof.
  induction l1 as [|d l1 IH]; simpl.
  - destruct p as [|a p]; [destruct l2; reflexivity|]. simpl.
    rewrite Ascii.eqb_refl, prefix_of_app. reflexivity.
  - rewrite IH, orb_true_r. reflexivity.
Qed.

Lemma not_in_contains (c : ascii) (s : string) :
  ~ In c (chars s) -> contains (String c EmptyString) s = false.
Proof.
  unfold contains. change (chars (String c EmptyString)) with [c].
  generalize (chars s). intros l Hl. induction l as [|d l IH]; [reflexivity|].
  cbn [contains_l prefix_of].
  destruct (Ascii.eqb_spec c d) as [->|]; [simpl in Hl; tauto|].
  rewrite IH by (intros H; apply Hl; right; exact H). reflexivity.
Qed.

Lemma contains_char_absent (c : ascii) (s : string) :
  contains (String c EmptyString) s = false -> ~ In c (chars s).
Proof.
  unfold contains. change (chars (String c EmptyString)) with [c].
  generalize (chars s). intros l. induction l as [|d l IH]; [intros _ []|].
  cbn [contains_l prefix_of]. intros H [<-|Hin].
  - rewrite Ascii.eqb_refl in H. discriminate.
  - apply orb_false_iff in H. exact (IH (proj2 H) Hin).
Qed.

(** [allowed_file] judges a name with a ['.'] by its last extension alone,
    case-insensitively: [name + "." + ext] with no ['.'] in [ext] is allowed
    exactly when [ext.lower()] is one of [ALLOWED_EXTENSIONS]; a name without
    a ['.'] is never allowed. *)
Theorem allowed_file_last_extension (name ext : string) :
  contains "." ext = false ->
  App.allowed_file (name ++ "." ++ ext) = mem (lower ext) App.ALLOWED_EXTENSIONS
  /\ (contains "." name = false -> App.allowed_file name = false).
Proof.
  intros He. split.
  - unfold App.allowed_file, App.after_last.
    replace (contains "." (name ++ "." ++ ext)) with true.
    2: { unfold contains. rewrite !chars_app. symmetry. apply contains_l_app_mid. }
    rewrite !chars_app. change (chars ".") with ["."%char]. simpl app at 2.
    rewrite after_last_l_split, after_last_l_absent, app_nil_l, of_chars_chars; [reflexivity|].
    apply contains_char_absent. exact He.
  - intros Hn. unfold App.allowed_file. rewrite Hn. reflexivity.
Qed.

Lemma allowed_file_last_extension_witness :
  contains "." "MP3" = false /\ App.allowed_file ("talk.final" ++ "." ++ "MP3") = true.
Proof.
  split; [reflexivity|].
  rewrite (proj1 (allowed_file_last_extension "talk.final" "MP3" eq_refl)). reflexivity.
Defined.

(** [get_file] looks the file up as [uploads/<f>] and, failing that, as the
    S3 key [meetings/<f>], for one and the same name [f] without a ['/']:
    the last component of the requested path.  That component may still be
    [".."]: the path ["a/.."] is looked up as ["uploads/.."]. *)
Theorem get_file_paths_flat (filename : string) :
  (exists f, contains "/" f = false
             /\ App.get_file_paths filename = ("uploads/" ++ f, "meetings/" ++ f))
  /\ App.get_file_paths "a/.." = ("uploads/..", "meetings/..").
Proof.
  split; [|reflexivity].
  exists (App.basename filename).
  assert (Hf : ~ In "/"%char (chars (App.basename filename))).
  { unfold App.basename, App.after_last. rewrite chars_of_chars.
    apply after_last_l_free. intros []. }
  split; [exact (not_in_contains "/"%char _ Hf)|].
  unfold App.get_file_paths. cbv zeta. f_equal. unfold App.join_path.
  destruct (chars (App.basename filename)) as [|c r] eqn:E; [reflexivity|].
  destruct (Ascii.eqb_spec c "/"%char) as [->|]; [exfalso; apply Hf; left; reflexivity|].
  reflexivity.
Qed.

End Extras.
